(** * st_downloader: the OSM XML to GeoJSON compiler

    A shallow embedding of [OSMEngine.osm_to_geojson]
    (src/st_downloader/engines/osm.py) and the properties of the streaming
    geometry compiler that the specification states about it.

    The function consumes the event stream of [ET.iterparse], keeps two
    registries (nodes, ways), three scratch buffers (tags, refs, members) and
    an append-only feature list, and finally dumps one JSON document.

    What is taken from outside the repository is a parameter of the model:
    - Python floats: their type, what [float(s)] returns on a string and the
      IEEE comparison [==] (class [PyFloat]);
    - [json.dump(..., indent=2)], a function from the JSON value to the text
      written, and the clock read by [time.time()] with the formatting of
      the elapsed time (variables of section [Writer]).
    The input file is assumed to exist and the output path to be writable. *)

From Stdlib Require Import Ascii String List ZArith Lia.
From stdpp Require Import base option list gmap strings.

Local Open Scope string_scope.
Local Open Scope list_scope.
Local Open Scope nat_scope.

(** ** Python values *)

(** What [elem.get(key)] returns: a [str], or [None]. *)
Abbreviation pystr := (option string).

(** The exceptions the body of [osm_to_geojson] could raise. What the
    parser itself raises is one case: [ParseError] on malformed XML, under
    which the model also files the parser's other failures (an encoding it
    does not know); no statement depends on telling them apart. *)
Inductive exn :=
| ParseError   (* ET.iterparse failing, on malformed XML above all *)
| TypeError    (* float(None) *)
| ValueError   (* float("abc") *)
| KeyError     (* d[k] with k absent *)
| IndexError.  (* l[i] with i out of range *)

Inductive result (A : Type) :=
| Ok (a : A)
| Raise (e : exn).
Arguments Ok {A} a.
Arguments Raise {A} e.

#[global] Instance result_ret : MRet result := fun A a => Ok a.
#[global] Instance result_bind : MBind result := fun A B f m =>
  match m with
  | Ok a => f a
  | Raise e => Raise e
  end.

Definition raises {A} (m : result A) : Prop := exists e, m = Raise e.

(** *** Insertion-ordered dictionaries

    The scratch tag map and every feature's [properties] are Python dicts
    whose order json.dump observes: a key keeps the position of its first
    insertion and its value is overwritten in place. *)
Module PyDict.
Section Dict.
Context {K V : Type} `{EqDecision K}.

(** [d[k] = v] *)
Fixpoint set (k : K) (v : V) (d : list (K * V)) : list (K * V) :=
  match d with
  | [] => [(k, v)]
  | (k', v') :: d' =>
      if decide (k = k') then (k', v) :: d' else (k', v') :: set k v d'
  end.

(** [d.get(k)], with [None] for an absent key left to the caller *)
Fixpoint get (k : K) (d : list (K * V)) : option V :=
  match d with
  | [] => None
  | (k', v') :: d' => if decide (k = k') then Some v' else get k d'
  end.

(** [bool(d)] *)
Definition truthy (d : list (K * V)) : bool :=
  match d with [] => false | _ :: _ => true end.
End Dict.
End PyDict.

(** *** Lists: comprehension with a guard, indexing *)

(** [[body(x) for x in l if guard(x)]], the body being allowed to raise. *)
Fixpoint comprehension {A B} (body : A -> result B) (guard : A -> bool)
    (l : list A) : result (list B) :=
  match l with
  | [] => Ok []
  | x :: l' =>
      if guard x then
        y ← body x; ys ← comprehension body guard l'; Ok (y :: ys)
      else comprehension body guard l'
  end.

(** [l[i]], negative [i] counting from the end, [IndexError] out of range. *)
Definition index {A} (l : list A) (i : Z) : result A :=
  let n := Z.of_nat (length l) in
  let j := if (i <? 0)%Z then (i + n)%Z else i in
  if ((j <? 0) || (n <=? j))%Z then Raise IndexError
  else match l !! Z.to_nat j with
       | Some x => Ok x
       | None => Raise IndexError
       end.

(** [m[k]] and [k in m] on a registry. *)
Definition getitem {V} (m : gmap (option string) V) (k : pystr) : result V :=
  match m !! k with
  | Some v => Ok v
  | None => Raise KeyError
  end.

Definition contains {V} (m : gmap (option string) V) (k : pystr) : bool :=
  match m !! k with
  | Some _ => true
  | None => false
  end.

(** *** Floats *)

Class PyFloat (float : Type) := {
  (** [float(s)] on a string: its value, or [None] for [ValueError] *)
  float_of_string : string -> option float;
  (** [x == y] on floats (IEEE: a NaN differs from itself) *)
  float_eq : float -> float -> bool
}.

(** ** The input: the event stream of [ET.iterparse] *)

Record Element := {
  tag : string;
  attrib : gmap string string
}.

(** [elem.get(key)] *)
Definition get (elem : Element) (key : string) : pystr := attrib elem !! key.

Inductive event := ev_start | ev_end.

(** The events the parser yields, in order, and whether it then raises
    (malformed XML, or a declaration it cannot handle, the events then being
    none) instead of ending. *)
Record document := {
  events : list (event * Element);
  malformed : bool
}.

(** ** The data model of the compiler *)

Section Model.
Context {float : Type} {PF : PyFloat float}.

(** A float object: [float(...)] allocates a fresh object at each call.
    The comparison of two lists looks at the identity of their items
    before their values, so the identity is kept with the value. *)
Record float_obj := {
  addr : nat;
  val : float
}.

(** A coordinate [[lon, lat]]. *)
Definition coord : Type := float_obj * float_obj.

(** [a == b] on two items of a list: identical, or equal by value. *)
Definition item_eq (a b : float_obj) : bool :=
  bool_decide (addr a = addr b) || float_eq (val a) (val b).

(** [a == b] on two lists [[lon, lat]]. *)
Definition coord_eq (a b : coord) : bool :=
  item_eq a.1 b.1 && item_eq a.2 b.2.

(** A way registry entry [{"coords": ..., "tags": ...}]. *)
Record way_entry := {
  coords : list coord;
  tags : list (pystr * pystr)
}.

(** A relation member [{"type": ..., "ref": ..., "role": ...}]. *)
Record member := {
  m_type : pystr;
  m_ref : pystr;
  m_role : pystr
}.

(** The ["geometry"] of a feature: its ["type"] and ["coordinates"]. *)
Inductive Geometry :=
| Point (c : coord)
| LineString (cs : list coord)
| Polygon (rings : list (list coord))
| MultiPolygon (polys : list (list (list coord))).

Definition geometry_type (g : Geometry) : string :=
  match g with
  | Point _ => "Point"
  | LineString _ => "LineString"
  | Polygon _ => "Polygon"
  | MultiPolygon _ => "MultiPolygon"
  end.

(** A feature [{"type": "Feature", "geometry": ..., "properties": ...}]. *)
Record feature := {
  geometry : Geometry;
  properties : list (pystr * pystr)
}.

(** The local variables of [osm_to_geojson] during the pass. *)
Record state := {
  nodes : gmap (option string) coord;
  ways : gmap (option string) way_entry;
  features : list feature;
  current_tags : list (pystr * pystr);
  current_refs : list pystr;
  current_members : list member;
  (** the next fresh float object *)
  heap : nat
}.

Definition initial : state :=
  {| nodes := ∅; ways := ∅; features := [];
     current_tags := []; current_refs := []; current_members := [];
     heap := 0 |}.

(** [features.append(f)] *)
Definition append_feature (f : feature) (st : state) : state :=
  {| nodes := nodes st; ways := ways st; features := features st ++ [f];
     current_tags := current_tags st; current_refs := current_refs st;
     current_members := current_members st; heap := heap st |}.

(** ** The loop body *)

(** A ["start"] event: the scratch buffers are reset when a node, a way
    or a relation begins. *)
Definition on_start (elem : Element) (st : state) : state :=
  if bool_decide (tag elem ∈ ["node"; "way"; "relation"]) then
    {| nodes := nodes st; ways := ways st; features := features st;
       current_tags := []; current_refs := []; current_members := [];
       heap := heap st |}
  else st.

(** [current_tags[elem.get("k")] = elem.get("v")] *)
Definition end_tag (elem : Element) (st : state) : state :=
  {| nodes := nodes st; ways := ways st; features := features st;
     current_tags := PyDict.set (get elem "k") (get elem "v") (current_tags st);
     current_refs := current_refs st;
     current_members := current_members st; heap := heap st |}.

(** [current_refs.append(elem.get("ref"))] *)
Definition end_nd (elem : Element) (st : state) : state :=
  {| nodes := nodes st; ways := ways st; features := features st;
     current_tags := current_tags st;
     current_refs := current_refs st ++ [get elem "ref"];
     current_members := current_members st; heap := heap st |}.

(** [current_members.append({...})] *)
Definition end_member (elem : Element) (st : state) : state :=
  {| nodes := nodes st; ways := ways st; features := features st;
     current_tags := current_tags st; current_refs := current_refs st;
     current_members := current_members st ++
       [{| m_type := get elem "type"; m_ref := get elem "ref";
           m_role := get elem "role" |}];
     heap := heap st |}.

(** [float(x)] for [x = elem.get(...)], allocated at address [a]. *)
Definition py_float (x : pystr) (a : nat) : result float_obj :=
  match x with
  | None => Raise TypeError
  | Some s =>
      match float_of_string s with
      | Some v => Ok {| addr := a; val := v |}
      | None => Raise ValueError
      end
  end.

(** [{**current_tags, "osm_id": id}] *)
Definition with_osm_id (tgs : list (pystr * pystr)) (id : pystr)
    : list (pystr * pystr) :=
  PyDict.set (Some "osm_id") id tgs.

(** The end of a node (lines 103-114). *)
Definition end_node (elem : Element) (st : state) : result state :=
  let n_id := get elem "id" in
  lon ← py_float (get elem "lon") (heap st);
  lat ← py_float (get elem "lat") (S (heap st));
  let st1 :=
    {| nodes := <[n_id := (lon, lat)]> (nodes st); ways := ways st;
       features := features st; current_tags := current_tags st;
       current_refs := current_refs st;
       current_members := current_members st; heap := S (S (heap st)) |} in
  if PyDict.truthy (current_tags st) then
    Ok (append_feature
          {| geometry := Point (lon, lat);
             properties := with_osm_id (current_tags st) n_id |} st1)
  else Ok st1.

(** [coords[0] == coords[-1] if len(coords) > 1 else False] *)
Definition is_polygon (cs : list coord) : result bool :=
  if bool_decide (1 < length cs) then
    c0 ← index cs 0; cn ← index cs (-1); Ok (coord_eq c0 cn)
  else Ok false.

(** The end of a way (lines 116-132). *)
Definition end_way (elem : Element) (st : state) : result state :=
  let w_id := get elem "id" in
  cs ← comprehension (getitem (nodes st)) (contains (nodes st))
         (current_refs st);
  let st1 :=
    {| nodes := nodes st;
       ways := <[w_id := {| coords := cs; tags := current_tags st |}]> (ways st);
       features := features st; current_tags := current_tags st;
       current_refs := current_refs st;
       current_members := current_members st; heap := heap st |} in
  if PyDict.truthy (current_tags st) then
    p ← is_polygon cs;
    Ok (append_feature
          {| geometry := if p : bool then Polygon [cs] else LineString cs;
             properties := with_osm_id (current_tags st) w_id |} st1)
  else Ok st1.

(** [[ways[m["ref"]]["coords"] for m in current_members
      if m["role"] == role and m["ref"] in ways]] *)
Definition rings (role : string) (st : state) : result (list (list coord)) :=
  comprehension
    (fun m => w ← getitem (ways st) (m_ref m); Ok (coords w))
    (fun m => bool_decide (m_role m = Some role) && contains (ways st) (m_ref m))
    (current_members st).

(** One iteration of [for m in current_members] (lines 150-162). *)
Definition route_member (r_id : pystr) (m : member) (st : state)
    : result state :=
  let props :=
    PyDict.set (Some "osm_id") r_id
      (PyDict.set (Some "rel_role") (m_role m) (current_tags st)) in
  if bool_decide (m_type m = Some "node") && contains (nodes st) (m_ref m) then
    c ← getitem (nodes st) (m_ref m);
    Ok (append_feature {| geometry := Point c; properties := props |} st)
  else if bool_decide (m_type m = Some "way") && contains (ways st) (m_ref m) then
    w ← getitem (ways st) (m_ref m);
    Ok (append_feature
          {| geometry := LineString (coords w); properties := props |} st)
  else Ok st.

Fixpoint for_members (r_id : pystr) (ms : list member) (st : state)
    : result state :=
  match ms with
  | [] => Ok st
  | m :: ms' => st' ← route_member r_id m st; for_members r_id ms' st'
  end.

(** [current_tags.get("type")] *)
Definition rel_type_of (tgs : list (pystr * pystr)) : pystr :=
  match PyDict.get (Some "type") tgs with
  | Some v => v
  | None => None
  end.

(** The end of a relation (lines 134-163). *)
Definition end_relation (elem : Element) (st : state) : result state :=
  let r_id := get elem "id" in
  let rel_type := rel_type_of (current_tags st) in
  if bool_decide (rel_type ∈ [Some "multipolygon"; Some "boundary"]) then
    outer ← rings "outer" st;
    inner ← rings "inner" st;
    match outer with
    | _ :: _ =>
        Ok (append_feature
              {| geometry := MultiPolygon [outer ++ inner];
                 properties := with_osm_id (current_tags st) r_id |} st)
    | [] => Ok st
    end
  else if bool_decide (rel_type ∈ [Some "route"; Some "restriction"]) then
    for_members r_id (current_members st) st
  else Ok st.

(** An ["end"] event: the [if]/[elif] chain on [elem.tag]. *)
Definition on_end (elem : Element) (st : state) : result state :=
  if bool_decide (tag elem = "tag") then Ok (end_tag elem st)
  else if bool_decide (tag elem = "nd") then Ok (end_nd elem st)
  else if bool_decide (tag elem = "member") then Ok (end_member elem st)
  else if bool_decide (tag elem = "node") then end_node elem st
  else if bool_decide (tag elem = "way") then end_way elem st
  else if bool_decide (tag elem = "relation") then end_relation elem st
  else Ok st.

Definition step (ev : event) (elem : Element) (st : state) : result state :=
  match ev with
  | ev_start => Ok (on_start elem st)
  | ev_end => on_end elem st
  end.

(** [for event, elem in context: ...] *)
Fixpoint loop (evs : list (event * Element)) (st : state) : result state :=
  match evs with
  | [] => Ok st
  | (ev, elem) :: evs' => st' ← step ev elem st; loop evs' st'
  end.

(** The whole pass: the events, then the parser's own error if any. *)
Definition pass (doc : document) : result (list feature) :=
  st ← loop (events doc) initial;
  if malformed doc then Raise ParseError else Ok (features st).
End Model.

(** The strings [float] is called on during a pass: the [lon] and [lat]
    of the nodes that end, in order. *)
Definition coordinate_literals (evs : list (event * Element)) : list string :=
  flat_map
    (fun '(ev, elem) =>
       match ev with
       | ev_end =>
           if bool_decide (tag elem = "node")
           then option_list (get elem "lon") ++ option_list (get elem "lat")
           else []
       | ev_start => []
       end)
    evs.

(** A float model that reads [float(s)] from a finite table and compares
    as [PF] does. *)
Definition with_table {float : Type} (PF : PyFloat float)
    (tbl : list (string * float)) : PyFloat float :=
  {| float_of_string := fun s => PyDict.get s tbl;
     float_eq := float_eq |}.

(** ** The feature collection writer *)

Section Writer.
Context {float : Type} {PF : PyFloat float}.
Local Abbreviation coord := (@coord float).
Local Abbreviation way_entry := (@way_entry float).
Local Abbreviation Geometry := (@Geometry float).
Local Abbreviation feature := (@feature float).
Local Abbreviation state := (@state float).

(** The values handed to [json.dump]. The keys of an object are the
    keys of the Python dict: strings, or [None]. *)
#[local] Unset Elimination Schemes.
Inductive json :=
| JNull
| JString (s : string)
| JNumber (x : float)
| JArray (l : list json)
| JObject (l : list (pystr * json)).
#[local] Set Elimination Schemes.

Definition pystr_json (x : pystr) : json :=
  match x with
  | Some s => JString s
  | None => JNull
  end.

Definition coord_json (c : coord) : json :=
  JArray [JNumber (val c.1); JNumber (val c.2)].

Definition line_json (cs : list coord) : json :=
  JArray (map coord_json cs).

Definition rings_json (rs : list (list coord)) : json :=
  JArray (map line_json rs).

Definition geometry_json (g : Geometry) : json :=
  JObject
    [(Some "type", JString (geometry_type g));
     (Some "coordinates",
      match g with
      | Point c => coord_json c
      | LineString cs => line_json cs
      | Polygon rs => rings_json rs
      | MultiPolygon ps => JArray (map rings_json ps)
      end)].

Definition feature_json (f : feature) : json :=
  JObject
    [(Some "type", JString "Feature");
     (Some "geometry", geometry_json (geometry f));
     (Some "properties",
      JObject (map (fun kv => (kv.1, pystr_json kv.2)) (properties f)))].

(** [{"type": "FeatureCollection", "features": features}] *)
Definition collection_json (fs : list feature) : json :=
  JObject
    [(Some "type", JString "FeatureCollection");
     (Some "features", JArray (map feature_json fs))].

(** What a call leaves behind: the exception it raised if any, the
    content of the file at [output_path] if it was written, and the line
    printed. *)
Record outcome := {
  raised : option exn;
  output_file : option string;
  printed : option string
}.

(** [json.dump(value, f, indent=2)]: the text written. *)
Variable dump : json -> string.
(** The readings of [time.time()] and the line printed from two of them. *)
Variable clock : Type.
Variable report : clock -> clock -> string.

(** [osm_to_geojson(output_path, input_path)], for the document at
    [input_path] and the two clock readings of the call. *)
Definition osm_to_geojson (start_time end_time : clock) (doc : document)
    : outcome :=
  match pass doc with
  | Ok fs =>
      {| raised := None;
         output_file := Some (dump (collection_json fs));
         printed := Some (report start_time end_time) |}
  | Raise e =>
      {| raised := Some e; output_file := None; printed := None |}
  end.
End Writer.

(** ** Documents as trees, and the order of the events *)

#[local] Unset Elimination Schemes.
Inductive xml := Elem (elem : Element) (children : list xml).
#[local] Set Elimination Schemes.

(** [ET.iterparse(path, events=("start", "end"))] on a well-formed tree. *)
Fixpoint iterparse (x : xml) : list (event * Element) :=
  match x with
  | Elem elem children =>
      (ev_start, elem) :: concat (map iterparse children) ++ [(ev_end, elem)]
  end.

Definition element (t : string) (attrs : list (string * string)) : Element :=
  {| tag := t; attrib := list_to_map attrs |}.

(** ** A float model for evaluation: plain decimal literals

    [[-]digits[.digits]] read exactly as mantissa and number of fractional
    digits; on literals of fewer than sixteen significant digits two of them
    are equal as doubles exactly when they are equal as decimals. *)
Module Decimal.
Definition digit (c : Ascii.ascii) : option Z :=
  let n := Ascii.nat_of_ascii c in
  if (48 <=? n)%nat && (n <=? 57)%nat then Some (Z.of_nat (n - 48)) else None.

Fixpoint scan (s : string) (m : Z) (dot : bool) (k : nat) (any : bool)
    : option (Z * nat) :=
  match s with
  | EmptyString => if any then Some (m, k) else None
  | String c s' =>
      if Ascii.eqb c "."%char then
        if dot then None else scan s' m true k any
      else
        match digit c with
        | Some d => scan s' (10 * m + d)%Z dot (if dot then S k else k) true
        | None => None
        end
  end.

Definition parse (s : string) : option (Z * nat) :=
  match s with
  | String "-"%char s' =>
      match scan s' 0%Z false 0 false with
      | Some (m, k) => Some ((- m)%Z, k)
      | None => None
      end
  | _ => scan s 0%Z false 0 false
  end.

Definition eqb (a b : Z * nat) : bool :=
  (a.1 * 10 ^ Z.of_nat b.2 =? b.1 * 10 ^ Z.of_nat a.2)%Z.

Definition model : PyFloat (Z * nat) :=
  {| float_of_string := parse; float_eq := eqb |}.
End Decimal.

(** ** The document of the reference test (src/tests/test_osm.py) *)

Module Fixture.
Definition leaf (t : string) (attrs : list (string * string)) : xml :=
  Elem (element t attrs) [].

Definition tag_ (k v : string) : xml := leaf "tag" [("k", k); ("v", v)].
Definition nd (ref : string) : xml := leaf "nd" [("ref", ref)].
Definition member_ (type ref role : string) : xml :=
  leaf "member" [("type", type); ("ref", ref); ("role", role)].

Definition osm_content : xml :=
  Elem (element "osm"
          [("version", "0.6");
           ("generator", "Overpass API 0.7.62.8 e802775f")])
    [ leaf "note" [];
      leaf "meta" [("osm_base", "2025-12-21T23:30:31Z")];
      leaf "bounds"
        [("minlat", "32.8680000"); ("minlon", "-117.2150000");
         ("maxlat", "32.8750000"); ("maxlon", "-117.2080000")];
      Elem (element "node"
              [("id", "1"); ("lat", "32.8715"); ("lon", "-117.2110");
               ("version", "1"); ("timestamp", "2025-01-01T00:00:00Z")])
        [tag_ "name" "UTC Transit Center"];
      leaf "node"
        [("id", "2"); ("lat", "32.8720"); ("lon", "-117.2120"); ("version", "1")];
      leaf "node"
        [("id", "3"); ("lat", "32.8730"); ("lon", "-117.2120"); ("version", "1")];
      leaf "node"
        [("id", "4"); ("lat", "32.8730"); ("lon", "-117.2110"); ("version", "1")];
      leaf "node"
        [("id", "5"); ("lat", "32.8725"); ("lon", "-117.2115"); ("version", "1")];
      Elem (element "way" [("id", "10"); ("version", "1")])
        [nd "2"; nd "3";
         tag_ "highway" "primary"; tag_ "name" "Genesee Ave"];
      Elem (element "way" [("id", "11"); ("version", "1")])
        [nd "1"; nd "2"; nd "3"; nd "4"; nd "1";
         tag_ "building" "retail"];
      Elem (element "way" [("id", "12"); ("version", "1")])
        [nd "5"; nd "2"; nd "3"; nd "5"];
      Elem (element "relation" [("id", "100"); ("version", "1")])
        [member_ "way" "11" "outer"; member_ "way" "12" "inner";
         tag_ "type" "multipolygon"; tag_ "amenity" "marketplace"];
      Elem (element "relation" [("id", "200"); ("version", "1")])
        [member_ "way" "11" "outer";
         tag_ "type" "boundary"; tag_ "boundary" "parking";
         tag_ "name" "UTC Parking South"];
      Elem (element "relation" [("id", "300"); ("version", "1")])
        [member_ "way" "10" "track"; member_ "node" "1" "stop";
         tag_ "type" "route"; tag_ "route" "bus"; tag_ "ref" "201"];
      Elem (element "relation" [("id", "400"); ("version", "1")])
        [member_ "way" "10" "from"; member_ "node" "5" "via";
         tag_ "type" "restriction"; tag_ "restriction" "no_left_turn"] ].

Definition doc : document :=
  {| events := iterparse osm_content; malformed := false |}.

Definition props (l : list (string * string)) : list (pystr * pystr) :=
  map (fun kv => (Some kv.1, Some kv.2)) l.

(** What the pass emits on [doc]: for each feature its geometry type, the
    lengths of its coordinate arrays and its properties. Way 12 has no
    tag: it is stored for relation 100 and emits nothing itself. *)
Definition expected : list (string * list (list nat) * list (pystr * pystr)) :=
  [ ("Point", [],
     props [("name", "UTC Transit Center"); ("osm_id", "1")]);
    ("LineString", [[2]],
     props [("highway", "primary"); ("name", "Genesee Ave");
            ("osm_id", "10")]);
    ("Polygon", [[5]],
     props [("building", "retail"); ("osm_id", "11")]);
    ("MultiPolygon", [[5; 4]],
     props [("type", "multipolygon"); ("amenity", "marketplace");
            ("osm_id", "100")]);
    ("MultiPolygon", [[5]],
     props [("type", "boundary"); ("boundary", "parking");
            ("name", "UTC Parking South"); ("osm_id", "200")]);
    ("LineString", [[2]],
     props [("type", "route"); ("route", "bus"); ("ref", "201");
            ("rel_role", "track"); ("osm_id", "300")]);
    ("Point", [],
     props [("type", "route"); ("route", "bus"); ("ref", "201");
            ("rel_role", "stop"); ("osm_id", "300")]);
    ("LineString", [[2]],
     props [("type", "restriction"); ("restriction", "no_left_turn");
            ("rel_role", "from"); ("osm_id", "400")]);
    ("Point", [],
     props [("type", "restriction"); ("restriction", "no_left_turn");
            ("rel_role", "via"); ("osm_id", "400")]) ].
End Fixture.

(** The lengths of the coordinate arrays of a geometry: none for a Point,
    the number of positions of a LineString, of each ring of a Polygon, of
    each ring of each polygon of a MultiPolygon. *)
Definition shape {float : Type} (g : Geometry (float := float))
    : list (list nat) :=
  match g with
  | Point _ => []
  | LineString cs => [[length cs]]
  | Polygon rs => [map length rs]
  | MultiPolygon ps => map (map length) ps
  end.

Definition summary {float : Type} (f : feature (float := float))
    : string * list (list nat) * list (pystr * pystr) :=
  (geometry_type (geometry f), shape (geometry f), properties f).

(** ** Small inputs on which the statements are evaluated *)

Module Examples.
Definition at_ (a : nat) (m : Z) (k : nat) : float_obj (float := Z * nat) :=
  {| addr := a; val := (m, k) |}.

(** Two nodes in the registry, and the scratch buffers of a tagged way
    that goes from node 1 to node 2 and back, with a dangling ref. *)
Definition ring_state : state (float := Z * nat) :=
  {| nodes := <[Some "1" := (at_ 0 (-1172110) 4, at_ 1 328715 4)]>
              (<[Some "2" := (at_ 2 (-1172120) 4, at_ 3 328720 4)]> ∅);
     ways := ∅; features := [];
     current_tags := [(Some "building", Some "retail");
                      (Some "osm_id", Some "spoofed")];
     current_refs := [Some "1"; Some "2"; Some "99"; Some "1"];
     current_members := []; heap := 4 |}.

(** The same registry, and a tagged way none of whose refs resolve. *)
Definition dangling_state : state (float := Z * nat) :=
  {| nodes := nodes ring_state; ways := ∅; features := [];
     current_tags := [(Some "highway", Some "path")];
     current_refs := [Some "98"; Some "99"];
     current_members := []; heap := 4 |}.

Definition way_11 : Element := element "way" [("id", "11")].

Definition node_7 : Element :=
  element "node" [("id", "7"); ("lat", "32.8715"); ("lon", "-117.2110")].

Definition stored_ring : way_entry (float := Z * nat) :=
  {| coords := [(at_ 0 (-1172110) 4, at_ 1 328715 4);
                (at_ 2 (-1172120) 4, at_ 3 328720 4);
                (at_ 0 (-1172110) 4, at_ 1 328715 4)];
     tags := [] |}.

(** The scratch buffers of a relation of the given type over way 11 (a
    closed ring), node 1 and two refs that do not resolve. *)
Definition relation_state (type : string) : state (float := Z * nat) :=
  {| nodes := nodes ring_state;
     ways := <[Some "11" := stored_ring]> ∅;
     features := [];
     current_tags := [(Some "type", Some type);
                      (Some "rel_role", Some "spoofed")];
     current_refs := [];
     current_members :=
       [ {| m_type := Some "way"; m_ref := Some "11"; m_role := Some "outer" |};
         {| m_type := Some "way"; m_ref := Some "12"; m_role := Some "inner" |};
         {| m_type := Some "node"; m_ref := Some "1"; m_role := Some "stop" |};
         {| m_type := Some "node"; m_ref := Some "5"; m_role := Some "via" |} ];
     heap := 4 |}.

Definition relation_100 : Element := element "relation" [("id", "100")].

(** A document whose only way refers to a node that is not there. *)
Definition dangling_doc : document :=
  {| events :=
       iterparse
         (Elem (element "osm" [])
            [ Fixture.leaf "node"
                [("id", "1"); ("lat", "32.8715"); ("lon", "-117.2110")];
              Elem (element "way" [("id", "10")])
                [Fixture.nd "1"; Fixture.nd "99";
                 Fixture.tag_ "highway" "primary"] ]);
     malformed := false |}.

(** A document with a node whose longitude is not a number. *)
Definition corrupt_doc : document :=
  {| events :=
       iterparse
         (Elem (element "osm" [])
            [ Fixture.leaf "node"
                [("id", "1"); ("lat", "32.8715"); ("lon", "west")] ]);
     malformed := false |}.
End Examples.

(** ** The specification's vocabulary *)

Section Vocabulary.
Context {float : Type} {PF : PyFloat float}.
Local Abbreviation coord := (@coord float).
Local Abbreviation way_entry := (@way_entry float).
Local Abbreviation Geometry := (@Geometry float).
Local Abbreviation feature := (@feature float).
Local Abbreviation state := (@state float).

(** The refs of the way being finalized, resolved against the node
    registry: the unresolved ones dropped, the others in their order. *)
Definition resolved_coords (st : state) : list coord :=
  omap (fun r => nodes st !! r) (current_refs st).

(** More than one coordinate, and the first equal to the last. *)
Definition closed (cs : list coord) : Prop :=
  1 < length cs ∧
  ∃ c0 cn, head cs = Some c0 ∧ last cs = Some cn ∧ coord_eq c0 cn = true.

(** [props = tgs ∪ extra], the keys of [extra] taking precedence. *)
Definition tags_plus (tgs extra props : list (pystr * pystr)) : Prop :=
  ∀ k, PyDict.get k props =
       match PyDict.get k extra with
       | Some v => Some v
       | None => PyDict.get k tgs
       end.

(** [x] is an attribute value that [float] turns into [v]. *)
Definition parses_to (x : pystr) (v : float) : Prop :=
  x ≫= float_of_string = Some v.

(** [float(x)] raises: the attribute is missing or not a number. *)
Definition unparsable (x : pystr) : Prop :=
  x ≫= float_of_string = None.

(** A member of the relation being finalized that has the given role and
    whose ref is in the way registry. *)
Definition resolves_as (role : string) (st : state) (m : member) : Prop :=
  m_role m = Some role ∧ is_Some (ways st !! m_ref m).

#[global] Instance resolves_as_dec role st m :
  Decision (resolves_as role st m).
Proof. unfold resolves_as. apply _. Defined.

(** The stored rings of the members that resolve with a role, in order. *)
Definition resolved_rings (role : string) (st : state)
    : list (list coord) :=
  omap (fun m => if bool_decide (m_role m = Some role)
                 then coords <$> ways st !! m_ref m else None)
       (current_members st).

(** What one member of a route or restriction relation contributes. *)
Definition member_yields (ns : gmap (option string) coord)
    (ws : gmap (option string) way_entry) (tgs : list (pystr * pystr))
    (r_id : pystr) (m : member) (fs : list feature) : Prop :=
  let props_ok f :=
    tags_plus tgs [(Some "rel_role", m_role m); (Some "osm_id", r_id)]
      (properties f) in
  (m_type m = Some "node" ∧
     ∃ c f, ns !! m_ref m = Some c ∧ fs = [f] ∧
            geometry f = Point c ∧ props_ok f) ∨
  (m_type m = Some "way" ∧
     ∃ w f, ws !! m_ref m = Some w ∧ fs = [f] ∧
            geometry f = LineString (coords w) ∧ props_ok f) ∨
  (¬ (m_type m = Some "node" ∧ is_Some (ns !! m_ref m)) ∧
   ¬ (m_type m = Some "way" ∧ is_Some (ws !! m_ref m)) ∧
   fs = []).

(** [st'] is [st] with the features [fs] appended and the registries and
    the scratch buffers untouched. *)
Definition extends (st st' : state) (fs : list feature) : Prop :=
  nodes st' = nodes st ∧ ways st' = ways st ∧
  current_tags st' = current_tags st ∧
  current_members st' = current_members st ∧
  features st' = features st ++ fs.

(** Every node that ends in the stream has a longitude and a latitude
    that [float] accepts. *)
Definition parsable_nodes (evs : list (event * Element)) : Prop :=
  ∀ elem, (ev_end, elem) ∈ evs → tag elem = "node" →
    (∃ x, parses_to (get elem "lon") x) ∧
    (∃ y, parses_to (get elem "lat") y).

(** Some node that ends in the stream has a longitude or a latitude
    that [float] rejects. *)
Definition corrupt_node (evs : list (event * Element)) : Prop :=
  ∃ elem, (ev_end, elem) ∈ evs ∧ tag elem = "node" ∧
    (unparsable (get elem "lon") ∨ unparsable (get elem "lat")).

(** The ring a relation takes from a member: the coordinates stored for
    the way its ref names. *)
Definition stored_ring (st : state) (m : member) (ring : list coord) : Prop :=
  ∃ w, ways st !! m_ref m = Some w ∧ ring = coords w.
End Vocabulary.

(** ** The shape of a step, and what a pass keeps *)

Section Shape.
Context {float : Type} {PF : PyFloat float}.
Local Abbreviation coord := (@coord float).
Local Abbreviation way_entry := (@way_entry float).
Local Abbreviation feature := (@feature float).
Local Abbreviation state := (@state float).

(** The state with its three scratch buffers replaced. *)
Definition set_scratch (st : state) (tgs : list (pystr * pystr))
    (refs : list pystr) (ms : list member) : state :=
  {| nodes := nodes st; ways := ways st; features := features st;
     current_tags := tgs; current_refs := refs; current_members := ms;
     heap := heap st |}.

(** The state with features appended. *)
Definition add_features (fs : list feature) (st : state) : state :=
  {| nodes := nodes st; ways := ways st; features := features st ++ fs;
     current_tags := current_tags st; current_refs := current_refs st;
     current_members := current_members st; heap := heap st |}.

(** The state after [nodes[id] = [lon, lat]] for two fresh floats. *)
Definition with_node (id : pystr) (x y : float) (st : state) : state :=
  {| nodes := <[id := ({| addr := heap st; val := x |},
                       {| addr := S (heap st); val := y |})]> (nodes st);
     ways := ways st; features := features st;
     current_tags := current_tags st; current_refs := current_refs st;
     current_members := current_members st; heap := S (S (heap st)) |}.

(** The state after [ways[id] = w]. *)
Definition with_way (id : pystr) (w : way_entry) (st : state) : state :=
  {| nodes := nodes st; ways := <[id := w]> (ways st);
     features := features st;
     current_tags := current_tags st; current_refs := current_refs st;
     current_members := current_members st; heap := heap st |}.

(** The elements whose start resets the scratch buffers and whose end is
    finalized. *)
Definition primitive (t : string) : Prop := t ∈ ["node"; "way"; "relation"].

(** The properties of a feature emitted for the element [id] under the
    scratch tags [tgs]: the two dict displays of the source. *)
Definition emitted_by (tgs : list (pystr * pystr)) (id : pystr)
    (f : feature) : Prop :=
  properties f = PyDict.set (Some "osm_id") id tgs ∨
  ∃ role, properties f =
          PyDict.set (Some "osm_id") id
            (PyDict.set (Some "rel_role") role tgs).

(** What an event does to the state before it appends its features. *)
Inductive changes (ev : event) (elem : Element) (st : state) : state → Prop :=
| changes_scratch tgs refs ms :
    (tgs = [] ∨ tgs = current_tags st ∨
     ∃ k v, tgs = PyDict.set k v (current_tags st)) →
    ¬ (ev = ev_end ∧ primitive (tag elem)) →
    changes ev elem st (set_scratch st tgs refs ms)
| changes_node x y :
    ev = ev_end → tag elem = "node" →
    parses_to (get elem "lon") x → parses_to (get elem "lat") y →
    changes ev elem st (with_node (get elem "id") x y st)
| changes_way :
    ev = ev_end → tag elem = "way" →
    changes ev elem st
      (with_way (get elem "id")
         {| coords := resolved_coords st; tags := current_tags st |} st)
| changes_relation :
    ev = ev_end → tag elem = "relation" →
    changes ev elem st st.

(** The keys of a dict are pairwise distinct. *)
Definition keys_unique (d : list (pystr * pystr)) : Prop := NoDup (map fst d).

(** [a == b] on coordinates by value alone. *)
Definition value_eq (a b : coord) : bool :=
  float_eq (val a.1) (val b.1) && float_eq (val a.2) (val b.2).

(** The float objects of the node registry were allocated below [heap],
    and two of them at one address are one object. *)
Definition addresses_consistent (st : state) : Prop :=
  (∀ k c, nodes st !! k = Some c → addr c.1 < heap st ∧ addr c.2 < heap st) ∧
  (∀ k k' c c', nodes st !! k = Some c → nodes st !! k' = Some c' →
     (addr c.1 = addr c'.1 → val c.1 = val c'.1) ∧
     (addr c.2 = addr c'.2 → val c.2 = val c'.2)).
End Shape.

(** *** The names of the properties in the document written *)

(** The name [json.dump] writes for a dict key: a string as it is, [None]
    as [null]. *)
Definition json_key (k : pystr) : string :=
  match k with
  | Some s => s
  | None => "null"
  end.

(** The names under which [json.dump] writes the entries of a dict. *)
Definition json_keys (d : list (pystr * pystr)) : list string :=
  map (fun kv => json_key kv.1) d.

(** Every key of the dict is a string. *)
Definition keys_named (d : list (pystr * pystr)) : Prop :=
  Forall (fun kv => is_Some kv.1) d.

(** Every [tag] element that ends in the stream has a [k] attribute. *)
Definition tags_have_keys (evs : list (event * Element)) : Prop :=
  ∀ elem, (ev_end, elem) ∈ evs → tag elem = "tag" → is_Some (get elem "k").

(** *** The children of a primitive *)

(** [d[k] = v] for each pair of [kvs], in order. *)
Definition assign_all (kvs : list (pystr * pystr))
    (d : list (pystr * pystr)) : list (pystr * pystr) :=
  foldl (fun d kv => PyDict.set kv.1 kv.2 d) d kvs.

(** The scratch buffers that the leaf children [cs] of a primitive build. *)
Definition tag_pairs (cs : list Element) : list (pystr * pystr) :=
  map (fun c => (get c "k", get c "v")) (filter (fun c => tag c = "tag") cs).

Definition tags_of (cs : list Element) : list (pystr * pystr) :=
  assign_all (tag_pairs cs) [].

Definition refs_of (cs : list Element) : list pystr :=
  map (fun c => get c "ref") (filter (fun c => tag c = "nd") cs).

Definition members_of (cs : list Element) : list member :=
  map (fun c => {| m_type := get c "type"; m_ref := get c "ref";
                   m_role := get c "role" |})
      (filter (fun c => tag c = "member") cs).

(** A primitive whose children are the leaves [cs]. *)
Definition with_leaves (elem : Element) (cs : list Element) : xml :=
  Elem elem (map (fun c => Elem c []) cs).

(** ** The engine object and the request of [download] *)

Module Engine.
Section Engine.
Context {float : Type}.

(** How an f-string formats a float. *)
Variable str : float → string.

(** The dict that [set_bbox] stores. *)
Record BBox := {
  south : float;
  west : float;
  north : float;
  east : float
}.

(** The attributes of an [OSMEngine]; [bbox] is [None] until [set_bbox]. *)
Record engine := {
  dataset_name : string;
  target_dir : string;
  bbox : option BBox
}.

(** [OSMEngine(dataset_name)] *)
Definition init (name : string) : engine :=
  {| dataset_name := name; target_dir := "./downloads"; bbox := None |}.

(** [self.set_bbox(south, west, north, east)] *)
Definition set_bbox (self : engine) (s w n e : float) : engine :=
  {| dataset_name := dataset_name self; target_dir := target_dir self;
     bbox := Some {| south := s; west := w; north := n; east := e |} |}.

Definition base_url : string := "https://overpass-api.de/api/map".

(** [f"{west},{south},{east},{north}"] *)
Definition bbox_str (b : BBox) : string :=
  str (west b) +:+ "," +:+ str (south b) +:+ "," +:+
  str (east b) +:+ "," +:+ str (north b).

(** [self.download()] up to its tail call: [ValueError] without a bounding
    box, else the url and the file name handed to [_execute_download]. *)
Definition download (self : engine) : result (string * string) :=
  match bbox self with
  | None => Raise ValueError
  | Some b =>
      let full_url := base_url +:+ "?bbox=" +:+ bbox_str b in
      let filename := dataset_name self +:+ ".osm" in
      Ok (full_url, filename)
  end.
End Engine.
End Engine.

(** [s.split(sep)] for a separator of one character. *)
Fixpoint split_on (sep : ascii) (s : string) : list string :=
  match s with
  | EmptyString => [EmptyString]
  | String c s' =>
      if Ascii.eqb c sep then EmptyString :: split_on sep s'
      else match split_on sep s' with
           | w :: ws => String c w :: ws
           | [] => [String c EmptyString]
           end
  end.

(** The character [c] does not occur in [s]. *)
Definition free_of (c : ascii) (s : string) : Prop :=
  c ∉ list_ascii_of_string s.

(** ** More small inputs *)

Module MoreExamples.
(** A document with no node, way or relation. *)
Definition bare_doc : document :=
  {| events :=
       iterparse
         (Elem (element "osm" [("version", "0.6")])
            [ Fixture.leaf "note" [];
              Fixture.leaf "meta" [("osm_base", "2025-12-21T23:30:31Z")] ]);
     malformed := false |}.

(** The end of a node, alone. *)
Definition node_end : list (event * Element) := [(ev_end, Examples.node_7)].

(** The children of way 12 of the fixture, and those of a relation that has
    no [type]; a repeated key among the tags. *)
Definition way_12_children : list Element :=
  [ element "nd" [("ref", "2")]; element "nd" [("ref", "1")];
    element "nd" [("ref", "2")] ].

Definition untyped_children : list Element :=
  [ element "member" [("type", "way"); ("ref", "11"); ("role", "outer")];
    element "tag" [("k", "name"); ("v", "old")];
    element "tag" [("k", "name"); ("v", "new")] ].

Definition way_12 : Element := element "way" [("id", "12")].

(** Two nodes and a tagged way from one to the other. *)
Definition two_node_doc : document :=
  {| events :=
       iterparse
         (Elem (element "osm" [])
            [ Fixture.leaf "node"
                [("id", "1"); ("lat", "32.8715"); ("lon", "-117.2110")];
              Fixture.leaf "node"
                [("id", "2"); ("lat", "32.8720"); ("lon", "-117.2120")];
              Elem (element "way" [("id", "10")])
                [Fixture.nd "1"; Fixture.nd "2";
                 Fixture.tag_ "highway" "primary"] ]);
     malformed := false |}.

(** The state in which the pass over [two_node_doc] ends. *)
Definition after_two_nodes : state (float := Z * nat) :=
  match loop (PF := Decimal.model) (events two_node_doc) initial with
  | Ok st => st
  | Raise _ => initial
  end.

(** A node with a [tag] that has no [k] and a [tag] whose [k] is [null]. *)
Definition null_key_doc : document :=
  {| events :=
       iterparse
         (Elem (element "osm" [])
            [ Elem (element "node"
                      [("id", "1"); ("lat", "32.8715"); ("lon", "-117.2110")])
                [ Fixture.leaf "tag" [("v", "x")];
                  Fixture.tag_ "null" "y" ] ]);
     malformed := false |}.
End MoreExamples.

(** * Properties *)

Section Properties.
Context {float : Type} {PF : PyFloat float}.
Local Abbreviation coord := (@coord float).
Local Abbreviation way_entry := (@way_entry float).
Local Abbreviation Geometry := (@Geometry float).
Local Abbreviation feature := (@feature float).
Local Abbreviation state := (@state float).

(** ** Dictionaries *)

Lemma get_set (k k' : pystr) (v : pystr) (d : list (pystr * pystr)) :
  PyDict.get k (PyDict.set k' v d) =
  if decide (k = k') then Some v else PyDict.get k d.
Proof.
  induction d as [|[k0 v0] d IH]; simpl.
  - repeat case_decide; congruence.
  - destruct (decide (k' = k0)) as [->|Hne]; simpl.
    + repeat case_decide; congruence.
    + rewrite IH. repeat case_decide; congruence.
Qed.

Lemma tags_plus_osm_id (tgs : list (pystr * pystr)) (id : pystr) :
  tags_plus tgs [(Some "osm_id", id)] (with_osm_id tgs id).
Proof.
  intros k. unfold with_osm_id. rewrite get_set. simpl.
  repeat case_decide; congruence.
Qed.

Lemma truthy_nonempty (d : list (pystr * pystr)) :
  d ≠ [] → PyDict.truthy d = true.
Proof. by destruct d. Qed.

(** ** Lists *)

Lemma index_first {A : Type} (x : A) (l : list A) : index (x :: l) 0 = Ok x.
Proof.
  unfold index. cbn [length Z.ltb Z.compare].
  destruct (Z.leb_spec (Z.of_nat (S (length l))) 0) as [Hle|_]; [lia|].
  reflexivity.
Qed.

Lemma index_last {A : Type} (l : list A) (x : A) :
  last l = Some x → index l (-1) = Ok x.
Proof.
  intros Hl. unfold index.
  assert (0 < length l) as Hpos.
  { destruct l; [discriminate|simpl; lia]. }
  replace (-1 <? 0)%Z with true by reflexivity.
  destruct (Z.ltb_spec (-1 + Z.of_nat (length l)) 0) as [?|_]; [lia|].
  destruct (Z.leb_spec (Z.of_nat (length l)) (-1 + Z.of_nat (length l)))
    as [?|_]; [lia|].
  simpl. rewrite last_lookup in Hl.
  replace (Z.to_nat (-1 + Z.of_nat (length l))) with (pred (length l)) by lia.
  by rewrite Hl.
Qed.

(** The guard of a comprehension over a registry protects its body. *)
Lemma comprehension_registry {A V B : Type} (m : gmap (option string) V)
    (key : A → pystr) (g : A → bool) (h : V → B) (l : list A) :
  comprehension (fun x => v ← getitem m (key x); Ok (h v))
                (fun x => g x && contains m (key x)) l =
  Ok (omap (fun x => if g x then h <$> m !! key x else None) l).
Proof.
  induction l as [|x l IH]; [done|]. simpl.
  unfold getitem, contains in *.
  destruct (g x), (m !! key x); simpl; rewrite IH; done.
Qed.

Lemma resolve_refs_ok (st : state) :
  comprehension (getitem (nodes st)) (contains (nodes st)) (current_refs st)
  = Ok (resolved_coords st).
Proof.
  unfold resolved_coords. induction (current_refs st) as [|r l IH]; [done|].
  simpl. unfold getitem, contains in *.
  destruct (nodes st !! r); simpl; rewrite IH; done.
Qed.

(** The closure test never raises and decides [closed]. *)
Lemma is_polygon_spec (cs : list coord) :
  ∃ b, is_polygon cs = Ok b ∧ (b = true ↔ closed cs).
Proof.
  unfold is_polygon, closed. case_bool_decide as Hlen.
  - destruct cs as [|c0 cs']; [simpl in Hlen; lia|].
    destruct (last (c0 :: cs')) as [cn|] eqn:Hlast.
    2:{ apply last_None in Hlast. discriminate. }
    rewrite index_first. simpl. rewrite (index_last _ _ Hlast). simpl.
    exists (coord_eq c0 cn). split; [done|]. split.
    + intros Heq. split; [done|]. by exists c0, cn.
    + intros [_ (c0' & cn' & H0 & Hn & Heq)]. simpl in H0. congruence.
  - exists false. split; [done|]. split; [done|]. intros [? _]. lia.
Qed.

(** ** The dispatch on the element's tag *)

Lemma on_end_node (elem : Element) (st : state) :
  tag elem = "node" → on_end elem st = end_node elem st.
Proof. intros H. unfold on_end. by rewrite H. Qed.

Lemma on_end_way (elem : Element) (st : state) :
  tag elem = "way" → on_end elem st = end_way elem st.
Proof. intros H. unfold on_end. by rewrite H. Qed.

Lemma on_end_relation (elem : Element) (st : state) :
  tag elem = "relation" → on_end elem st = end_relation elem st.
Proof. intros H. unfold on_end. by rewrite H. Qed.

(** ** Ways *)

(** C1: a tagged way emits one feature; it is a Polygon exactly when more
    than one coordinate resolved and the first equals the last, and a
    LineString otherwise; the coordinates of a Polygon are the single ring
    [[coords]]; the properties are the tags and [osm_id], the way's id. *)
Theorem way_geometry (elem : Element) (st : state) :
  tag elem = "way" →
  current_tags st ≠ [] →
  ∃ f st',
    step ev_end elem st = Ok st' ∧
    features st' = features st ++ [f] ∧
    (geometry_type (geometry f) = "Polygon" ↔ closed (resolved_coords st)) ∧
    (closed (resolved_coords st) →
       geometry f = Polygon [resolved_coords st]) ∧
    (¬ closed (resolved_coords st) →
       geometry f = LineString (resolved_coords st)) ∧
    tags_plus (current_tags st) [(Some "osm_id", get elem "id")]
      (properties f).
Proof.
  intros Htag Htags. simpl. rewrite on_end_way by done.
  unfold end_way. rewrite resolve_refs_ok. simpl.
  rewrite truthy_nonempty by done.
  destruct (is_polygon_spec (resolved_coords st)) as (b & -> & Hb). simpl.
  eexists _, _. split; [reflexivity|]. simpl. split; [reflexivity|].
  split; [|split; [|split]].
  - rewrite <- Hb. by destruct b.
  - intros Hc. apply Hb in Hc. by subst b.
  - intros Hc. destruct b; [|done]. exfalso. by apply Hc, Hb.
  - apply tags_plus_osm_id.
Qed.

Lemma end_way_ok (elem : Element) (st : state) :
  ∃ st', end_way elem st = Ok st' ∧
    nodes st' = nodes st ∧
    ways st' =
      <[get elem "id" :=
          {| coords := resolved_coords st; tags := current_tags st |}]>
        (ways st) ∧
    ∃ new, features st' = features st ++ new ∧ length new ≤ 1 ∧
      Forall (fun f => properties f =
                       with_osm_id (current_tags st) (get elem "id")) new.
Proof.
  unfold end_way. rewrite resolve_refs_ok. simpl.
  destruct (PyDict.truthy (current_tags st)).
  - destruct (is_polygon_spec (resolved_coords st)) as (b & -> & _). simpl.
    eexists. split; [reflexivity|]. simpl. do 2 (split; [done|]).
    eexists [_]. split; [done|]. split; [simpl; lia|].
    by constructor.
  - eexists. split; [reflexivity|]. simpl. do 2 (split; [done|]).
    exists []. rewrite app_nil_r. split; [done|].
    split; [simpl; lia|constructor].
Qed.

(** C10: the end of a way never raises on a short or empty coordinate
    list: the first and last coordinates are read only behind the length
    test, the way is stored with the coordinates that resolved, and a tagged
    way with at most one of them emits a LineString of that length. *)
Theorem short_way_is_linestring (elem : Element) (st : state) :
  tag elem = "way" →
  ∃ st',
    step ev_end elem st = Ok st' ∧
    ways st' !! get elem "id" =
      Some {| coords := resolved_coords st; tags := current_tags st |} ∧
    (length (resolved_coords st) ≤ 1 →
       is_polygon (resolved_coords st) = Ok false ∧
       (current_tags st ≠ [] →
          ∃ f, features st' = features st ++ [f] ∧
               geometry f = LineString (resolved_coords st) ∧
               tags_plus (current_tags st) [(Some "osm_id", get elem "id")]
                 (properties f))).
Proof.
  intros Htag. simpl. rewrite on_end_way by done.
  unfold end_way. rewrite resolve_refs_ok. simpl.
  assert (length (resolved_coords st) ≤ 1 →
          is_polygon (resolved_coords st) = Ok false) as Hshort.
  { intros Hlen. unfold is_polygon. case_bool_decide; [lia|done]. }
  destruct (PyDict.truthy (current_tags st)) eqn:Htr.
  - destruct (is_polygon_spec (resolved_coords st)) as (b & Hp & _).
    rewrite Hp. simpl. eexists. split; [reflexivity|]. simpl.
    split; [by rewrite lookup_insert_eq|].
    intros Hlen. rewrite (Hshort Hlen) in Hp. injection Hp as <-.
    split; [done|]. intros _.
    eexists. split; [reflexivity|]. split; [done|]. apply tags_plus_osm_id.
  - eexists. split; [reflexivity|]. simpl.
    split; [by rewrite lookup_insert_eq|].
    intros Hlen. split; [by apply Hshort|]. intros Hne.
    by rewrite truthy_nonempty in Htr.
Qed.

(** ** Nodes *)

Lemma py_float_parses (x : pystr) (v : float) (a : nat) :
  parses_to x v → py_float x a = Ok {| addr := a; val := v |}.
Proof.
  unfold parses_to, py_float. destruct x as [s|]; simpl; [|done].
  by intros ->.
Qed.

Lemma py_float_unparsable (x : pystr) (a : nat) :
  unparsable x → raises (py_float x a).
Proof.
  unfold unparsable, py_float, raises. destruct x as [s|]; simpl.
  - intros ->. by eexists.
  - intros _. by eexists.
Qed.

(** C4: the end of a node stores its parsed coordinate under its id, and
    emits exactly one Point feature, with the tags and [osm_id] as
    properties, when the scratch tag map is not empty, none when it is. *)
Theorem node_finalization (elem : Element) (st : state) (x y : float) :
  tag elem = "node" →
  parses_to (get elem "lon") x →
  parses_to (get elem "lat") y →
  ∃ st' c,
    step ev_end elem st = Ok st' ∧
    val c.1 = x ∧ val c.2 = y ∧
    nodes st' = <[get elem "id" := c]> (nodes st) ∧
    (current_tags st ≠ [] →
       ∃ f, features st' = features st ++ [f] ∧
            geometry f = Point c ∧
            tags_plus (current_tags st) [(Some "osm_id", get elem "id")]
              (properties f)) ∧
    (current_tags st = [] → features st' = features st).
Proof.
  intros Htag Hx Hy. simpl. rewrite on_end_node by done.
  unfold end_node.
  rewrite (py_float_parses _ _ _ Hx), (py_float_parses _ _ _ Hy). simpl.
  set (c := ({| addr := heap st; val := x |},
             {| addr := S (heap st); val := y |})).
  destruct (current_tags st) as [|kv tgs] eqn:Htags; simpl.
  - eexists _, c. split; [reflexivity|]. simpl.
    do 3 (split; [done|]). split; done.
  - eexists _, c. split; [reflexivity|]. simpl.
    do 3 (split; [done|]). split; [|done]. intros _.
    eexists. split; [reflexivity|]. split; [done|]. apply tags_plus_osm_id.
Qed.

(** ** Relations: multipolygon and boundary *)

Lemma rings_ok (role : string) (st : state) :
  rings role st = Ok (resolved_rings role st).
Proof.
  unfold rings, resolved_rings.
  apply (comprehension_registry (ways st) m_ref
           (fun m => bool_decide (m_role m = Some role)) coords).
Qed.

Lemma resolved_rings_length (role : string) (st : state) :
  length (resolved_rings role st) =
  length (filter (resolves_as role st) (current_members st)).
Proof.
  unfold resolved_rings. induction (current_members st) as [|m ms IH].
  - done.
  - cbn [omap list_omap]. rewrite filter_cons.
    destruct (decide (resolves_as role st m)) as [[Hr [w Hw]]|Hn].
    + rewrite bool_decide_eq_true_2 by done. rewrite Hw. simpl.
      by rewrite IH.
    + case_bool_decide as Hrole; [|done].
      destruct (ways st !! m_ref m) as [w|] eqn:Hw; [|done].
      exfalso. apply Hn. split; [done|by eexists].
Qed.

Lemma resolved_rings_nonempty (role : string) (st : state) :
  Exists (resolves_as role st) (current_members st) ↔
  resolved_rings role st ≠ [].
Proof.
  rewrite <- length_zero_iff_nil, resolved_rings_length.
  rewrite length_zero_iff_nil. split.
  - intros Hex Hnil. apply Exists_exists in Hex as (m & Hin & Hm).
    assert (m ∈ filter (resolves_as role st) (current_members st)) as Hf
      by by apply list_elem_of_filter.
    rewrite Hnil in Hf. by apply elem_of_nil in Hf.
  - intros Hne.
    destruct (filter (resolves_as role st) (current_members st))
      as [|m l] eqn:Hf; [done|].
    assert (m ∈ filter (resolves_as role st) (current_members st)) as Hin
      by (rewrite Hf; left).
    apply list_elem_of_filter in Hin as [Hm Hin].
    apply Exists_exists. by exists m.
Qed.

(** C2: a multipolygon or boundary relation with a member of role outer
    whose ref is in the way registry emits exactly one MultiPolygon, its
    coordinates the single ring set of the resolved outer rings followed by
    the resolved inner rings, its properties the tags and [osm_id]; with
    no such member it emits nothing. *)
Theorem multipolygon_relation (elem : Element) (st : state) :
  tag elem = "relation" →
  rel_type_of (current_tags st) ∈ [Some "multipolygon"; Some "boundary"] →
  let outer := resolved_rings "outer" st in
  let inner := resolved_rings "inner" st in
  ∃ st',
    step ev_end elem st = Ok st' ∧
    (Exists (resolves_as "outer" st) (current_members st) →
       ∃ f, features st' = features st ++ [f] ∧
            geometry f = MultiPolygon [outer ++ inner] ∧
            length (outer ++ inner) =
              length (filter (resolves_as "outer" st) (current_members st)) +
              length (filter (resolves_as "inner" st) (current_members st)) ∧
            tags_plus (current_tags st) [(Some "osm_id", get elem "id")]
              (properties f)) ∧
    (¬ Exists (resolves_as "outer" st) (current_members st) →
       features st' = features st).
Proof.
  intros Htag Htype outer inner. simpl. rewrite on_end_relation by done.
  unfold end_relation. cbv zeta. rewrite bool_decide_eq_true_2 by done.
  rewrite !rings_ok. simpl. fold outer inner.
  pose proof (resolved_rings_nonempty "outer" st) as Hne. fold outer in Hne.
  destruct outer as [|o os] eqn:Ho.
  - eexists. split; [reflexivity|]. split; [|done].
    intros Hex. by apply Hne in Hex.
  - eexists. split; [reflexivity|]. simpl. split.
    + intros _. eexists. split; [reflexivity|]. simpl. split; [done|].
      split; [|apply tags_plus_osm_id].
      rewrite <- !resolved_rings_length. fold inner.
      replace (resolved_rings "outer" st) with (o :: os) by done.
      by rewrite <- length_app.
    + intros Hnex. exfalso. apply Hnex, Hne. done.
Qed.

(** ** Relations: route and restriction *)

Lemma tags_plus_route (tgs : list (pystr * pystr)) (role r_id : pystr) :
  tags_plus tgs [(Some "rel_role", role); (Some "osm_id", r_id)]
    (PyDict.set (Some "osm_id") r_id (PyDict.set (Some "rel_role") role tgs)).
Proof.
  intros k. rewrite !get_set. simpl. repeat case_decide; congruence.
Qed.

Lemma contains_true {V : Type} (m : gmap (option string) V) (k : pystr) :
  contains m k = true ↔ is_Some (m !! k).
Proof.
  unfold contains. destruct (m !! k); split; done.
Qed.

Lemma route_member_spec (r_id : pystr) (m : member) (st : state) :
  ∃ st' fs,
    route_member r_id m st = Ok st' ∧ extends st st' fs ∧
    member_yields (nodes st) (ways st) (current_tags st) r_id m fs.
Proof.
  unfold route_member, member_yields, extends, getitem.
  destruct (bool_decide (m_type m = Some "node") && contains (nodes st) (m_ref m))
    eqn:Hnode.
  - apply andb_prop in Hnode as [Ht Hc].
    apply bool_decide_eq_true in Ht. apply contains_true in Hc as [c Hc].
    rewrite Hc. simpl. eexists _, [_]. split; [reflexivity|]. simpl.
    split; [done|]. left. split; [done|]. eexists c, _.
    do 3 (split; [done|]). apply tags_plus_route.
  - destruct (bool_decide (m_type m = Some "way") && contains (ways st) (m_ref m))
      eqn:Hway.
    + apply andb_prop in Hway as [Ht Hc].
      apply bool_decide_eq_true in Ht. apply contains_true in Hc as [w Hw].
      rewrite Hw. simpl. eexists _, [_]. split; [reflexivity|]. simpl.
      split; [done|]. right; left. split; [done|]. eexists w, _.
      do 3 (split; [done|]). apply tags_plus_route.
    + exists st, []. split; [done|]. rewrite app_nil_r. split; [done|].
      right; right. split; [|split; [|done]].
      * intros [Ht Hc]. apply contains_true in Hc.
        by rewrite bool_decide_eq_true_2, Hc in Hnode.
      * intros [Ht Hc]. apply contains_true in Hc.
        by rewrite bool_decide_eq_true_2, Hc in Hway.
Qed.

Lemma for_members_spec (r_id : pystr) (ms : list member) (st : state) :
  ∃ st' fss,
    for_members r_id ms st = Ok st' ∧ extends st st' (concat fss) ∧
    Forall2 (member_yields (nodes st) (ways st) (current_tags st) r_id)
      ms fss.
Proof.
  revert st. induction ms as [|m ms IH]; intros st.
  - exists st, []. split; [done|]. split; [|constructor].
    unfold extends. simpl. by rewrite app_nil_r.
  - destruct (route_member_spec r_id m st)
      as (st1 & fs & Hrun & (Hn & Hw & Ht & Hm & Hf) & Hy).
    destruct (IH st1) as (st2 & fss & Hrun2 & (Hn2 & Hw2 & Ht2 & Hm2 & Hf2) & Hys).
    exists st2, (fs :: fss). simpl. rewrite Hrun. simpl.
    split; [done|]. split.
    + unfold extends. rewrite Hn2, Hw2, Ht2, Hm2, Hf2, Hf, app_assoc. done.
    + constructor; [done|]. by rewrite Hn, Hw, Ht in Hys.
Qed.

Lemma route_type_not_area (t : pystr) :
  t ∈ [Some "route"; Some "restriction"] →
  bool_decide (t ∈ [Some "multipolygon"; Some "boundary"]) = false.
Proof.
  intros Ht. apply bool_decide_eq_false_2. intros Ha.
  repeat (apply elem_of_cons in Ht as [->|Ht];
          [repeat (apply elem_of_cons in Ha as [Ha|Ha]; [discriminate|]);
           by apply elem_of_nil in Ha|]).
  by apply elem_of_nil in Ht.
Qed.

(** C3: a route or restriction relation handles its members one by one,
    in order: a node member whose ref is in the node registry gives a Point
    there, a way member whose ref is in the way registry gives a
    LineString of the stored coordinates (closed or not), any other member
    gives nothing; the properties are the relation's tags with [rel_role],
    the member's role, and [osm_id], the relation's id. *)
Theorem route_relation (elem : Element) (st : state) :
  tag elem = "relation" →
  rel_type_of (current_tags st) ∈ [Some "route"; Some "restriction"] →
  ∃ st' fss,
    step ev_end elem st = Ok st' ∧
    features st' = features st ++ concat fss ∧
    Forall2
      (member_yields (nodes st) (ways st) (current_tags st) (get elem "id"))
      (current_members st) fss.
Proof.
  intros Htag Htype. simpl. rewrite on_end_relation by done.
  unfold end_relation. cbv zeta.
  rewrite route_type_not_area by done.
  rewrite bool_decide_eq_true_2 by done.
  destruct (for_members_spec (get elem "id") (current_members st) st)
    as (st' & fss & Hrun & (_ & _ & _ & _ & Hf) & Hys).
  by exists st', fss.
Qed.

(** ** Reserved property keys *)

Lemma tags_plus_get (tgs extra props : list (pystr * pystr)) (k v : pystr) :
  tags_plus tgs extra props → PyDict.get k extra = Some v →
  PyDict.get k props = Some v.
Proof. intros Hp Hk. by rewrite Hp, Hk. Qed.

Lemma end_node_emits (elem : Element) (st st' : state) :
  end_node elem st = Ok st' →
  ∃ new, features st' = features st ++ new ∧ length new ≤ 1 ∧
    Forall (fun f => properties f =
                     with_osm_id (current_tags st) (get elem "id")) new.
Proof.
  unfold end_node.
  destruct (py_float (get elem "lon") (heap st)) as [lon|]; [|done].
  destruct (py_float (get elem "lat") (S (heap st))) as [lat|]; [|done].
  simpl. destruct (PyDict.truthy (current_tags st)); intros [= <-]; simpl.
  - eexists [_]. split; [done|]. split; [simpl; lia|]. by constructor.
  - exists []. rewrite app_nil_r. split; [done|].
    split; [simpl; lia|constructor].
Qed.

Lemma area_relation_emits (elem : Element) (st : state) :
  let r := (outer ← rings "outer" st; inner ← rings "inner" st;
            match outer with
            | _ :: _ =>
                Ok (append_feature
                      {| geometry := MultiPolygon [outer ++ inner];
                         properties :=
                           with_osm_id (current_tags st) (get elem "id") |}
                      st)
            | [] => Ok st
            end) in
  ∃ st' new, r = Ok st' ∧ features st' = features st ++ new ∧
    length new ≤ length (current_members st) ∧
    Forall (fun f => properties f =
                     with_osm_id (current_tags st) (get elem "id")) new.
Proof.
  intros r. subst r. rewrite !rings_ok. simpl.
  pose proof (resolved_rings_length "outer" st) as Hlen.
  destruct (resolved_rings "outer" st) as [|o os].
  - exists st, []. rewrite app_nil_r. do 2 (split; [done|]).
    split; [simpl; lia|constructor].
  - eexists _, [_]. split; [reflexivity|]. simpl. split; [done|].
    split; [|by constructor].
    pose proof (length_filter (resolves_as "outer" st) (current_members st)).
    simpl in Hlen. lia.
Qed.

Lemma member_yields_keys ns ws tgs (r_id : pystr) (ms : list member)
    (fss : list (list feature)) :
  Forall2 (member_yields ns ws tgs r_id) ms fss →
  length (concat fss) ≤ length ms ∧
  ∃ ms', sublist ms' ms ∧
    Forall2 (fun m f =>
               PyDict.get (Some "rel_role") (properties f) = Some (m_role m) ∧
               PyDict.get (Some "osm_id") (properties f) = Some r_id)
      ms' (concat fss).
Proof.
  induction 1 as [|m fs ms fss Hy _ (Hlen & ms' & Hsub & Hall)].
  - split; [done|]. exists []. split; [done|constructor].
  - assert (∀ f : feature, tags_plus tgs
                   [(Some "rel_role", m_role m); (Some "osm_id", r_id)]
                   (properties f) →
                 PyDict.get (Some "rel_role") (properties f) = Some (m_role m) ∧
                 PyDict.get (Some "osm_id") (properties f) = Some r_id) as Hkeys.
    { intros f Hp. split; by apply (tags_plus_get _ _ _ _ _ Hp). }
    destruct Hy as [(_ & c & f & _ & -> & _ & Hp)
                   |[(_ & w & f & _ & -> & _ & Hp)|(_ & _ & ->)]]; simpl.
    + split; [lia|]. exists (m :: ms'). split; [by constructor|].
      constructor; [by apply Hkeys|done].
    + split; [lia|]. exists (m :: ms'). split; [by constructor|].
      constructor; [by apply Hkeys|done].
    + split; [lia|]. exists ms'. split; [by constructor|done].
Qed.

Lemma with_osm_id_get (tgs : list (pystr * pystr)) (id : pystr) :
  PyDict.get (Some "osm_id") (with_osm_id tgs id) = Some id.
Proof. by apply (tags_plus_get _ _ _ _ _ (tags_plus_osm_id tgs id)). Qed.

Lemma Forall_osm_id (tgs : list (pystr * pystr)) (id : pystr)
    (new : list feature) :
  Forall (fun f => properties f = with_osm_id tgs id) new →
  Forall (fun f => PyDict.get (Some "osm_id") (properties f) = Some id) new.
Proof.
  intros Hall. eapply Forall_impl; [exact Hall|].
  intros f ->. apply with_osm_id_get.
Qed.

(** C9: in every feature an event emits, [osm_id] is the id of the element
    that ends, whatever its tags, and in the features of the members of a
    route or restriction relation [rel_role] is the role of the member that
    gave the feature, whatever the relation's tags: the reserved keys are
    written after the tags. *)
Theorem reserved_keys_override (ev : event) (elem : Element)
    (st st' : state) :
  step ev elem st = Ok st' →
  ∃ new, features st' = features st ++ new ∧
    Forall (fun f => PyDict.get (Some "osm_id") (properties f)
                     = Some (get elem "id")) new ∧
    (ev = ev_end → tag elem = "relation" →
     rel_type_of (current_tags st) ∈ [Some "route"; Some "restriction"] →
     ∃ ms, sublist ms (current_members st) ∧
       Forall2 (fun m f => PyDict.get (Some "rel_role") (properties f)
                           = Some (m_role m)) ms new).
Proof.
  assert (∀ s : state, features s = features s ++ [] ∧
            Forall (fun f : feature => PyDict.get (Some "osm_id") (properties f)
                             = Some (get elem "id")) []) as Hnil.
  { intros s. by rewrite app_nil_r. }
  destruct ev; simpl.
  - intros [= <-]. exists []. unfold on_start.
    case_bool_decide; simpl; (split; [by rewrite app_nil_r|]); split; done.
  - unfold on_end. repeat case_bool_decide.
    + intros [= <-]. exists []. simpl. rewrite app_nil_r.
      do 2 (split; [done|]). intros _ ?. congruence.
    + intros [= <-]. exists []. simpl. rewrite app_nil_r.
      do 2 (split; [done|]). intros _ ?. congruence.
    + intros [= <-]. exists []. simpl. rewrite app_nil_r.
      do 2 (split; [done|]). intros _ ?. congruence.
    + intros Hrun. apply end_node_emits in Hrun as (new & Hf & _ & Hall).
      exists new. split; [done|]. split; [by eapply Forall_osm_id|].
      intros _ ?. congruence.
    + intros Hrun.
      destruct (end_way_ok elem st) as (st1 & Hrun1 & _ & _ & new & Hf & _ & Hall).
      rewrite Hrun1 in Hrun. injection Hrun as <-.
      exists new. split; [done|]. split; [by eapply Forall_osm_id|].
      intros _ ?. congruence.
    + unfold end_relation. cbv zeta. case_bool_decide as Harea.
      * intros Hrun.
        destruct (area_relation_emits elem st)
          as (st1 & new & Hrun1 & Hf & _ & Hall).
        cbv zeta in Hrun1. rewrite Hrun1 in Hrun. injection Hrun as <-.
        exists new. split; [done|]. split; [by eapply Forall_osm_id|].
        intros _ _ Hroute. apply route_type_not_area in Hroute.
        by rewrite bool_decide_eq_true_2 in Hroute.
      * case_bool_decide as Hroute.
        -- intros Hrun.
           destruct (for_members_spec (get elem "id") (current_members st) st)
             as (st1 & fss & Hrun1 & (_ & _ & _ & _ & Hf) & Hys).
           rewrite Hrun1 in Hrun. injection Hrun as <-.
           apply member_yields_keys in Hys as (_ & ms' & Hsub & Hall).
           exists (concat fss). split; [done|]. split.
           ++ clear -Hall. induction Hall as [|???? [_ ?]]; by constructor.
           ++ intros _ _ _. exists ms'. split; [done|].
              clear -Hall. induction Hall as [|???? [? _]]; by constructor.
        -- intros [= <-]. exists []. rewrite app_nil_r.
           do 2 (split; [done|]). done.
    + intros [= <-]. exists []. rewrite app_nil_r.
      do 2 (split; [done|]). intros _ ?. congruence.
Qed.

(** ** Failures *)

Lemma end_relation_ok (elem : Element) (st : state) :
  ∃ st' new, end_relation elem st = Ok st' ∧
    features st' = features st ++ new ∧
    length new ≤ length (current_members st).
Proof.
  unfold end_relation. cbv zeta. case_bool_decide.
  - destruct (area_relation_emits elem st) as (st' & new & Hrun & Hf & Hlen & _).
    by exists st', new.
  - case_bool_decide.
    + destruct (for_members_spec (get elem "id") (current_members st) st)
        as (st' & fss & Hrun & (_ & _ & _ & _ & Hf) & Hys).
      apply member_yields_keys in Hys as [Hlen _].
      by exists st', (concat fss).
    + exists st, []. rewrite app_nil_r. do 2 (split; [done|]). simpl. lia.
Qed.

Lemma end_node_ok (elem : Element) (st : state) (x y : float) :
  parses_to (get elem "lon") x → parses_to (get elem "lat") y →
  ∃ st', end_node elem st = Ok st'.
Proof.
  intros Hx Hy. unfold end_node.
  rewrite (py_float_parses _ _ _ Hx), (py_float_parses _ _ _ Hy). simpl.
  destruct (PyDict.truthy (current_tags st)); by eexists.
Qed.

Lemma end_node_raises (elem : Element) (st : state) :
  unparsable (get elem "lon") ∨ unparsable (get elem "lat") →
  raises (end_node elem st).
Proof.
  intros Hbad. unfold end_node.
  destruct (py_float (get elem "lon") (heap st)) as [lon|e] eqn:Hlon.
  - destruct Hbad as [Hbad|Hbad].
    + apply (py_float_unparsable _ (heap st)) in Hbad as [e He]. congruence.
    + apply (py_float_unparsable _ (S (heap st))) in Hbad as [e He].
      rewrite He. by exists e.
  - by exists e.
Qed.

(** The pass raises only where a node fails to parse. *)
Lemma loop_ok (evs : list (event * Element)) (st : state) :
  parsable_nodes evs → ∃ st', loop evs st = Ok st'.
Proof.
  revert st. induction evs as [|[ev elem] evs IH]; intros st Hp.
  - by eexists.
  - assert (∃ st1, step ev elem st = Ok st1) as [st1 Hstep].
    { destruct ev; simpl; [by eexists|]. unfold on_end.
      repeat case_bool_decide; try by eexists.
      - destruct (Hp elem) as [[x Hx] [y Hy]]; [left|done|].
        by eapply end_node_ok.
      - destruct (end_way_ok elem st) as (st1 & Hrun & _). by exists st1.
      - destruct (end_relation_ok elem st) as (st1 & ? & Hrun & _).
        by exists st1. }
    simpl. rewrite Hstep. simpl. apply IH.
    intros e Hin. apply Hp. by right.
Qed.

Lemma loop_raises (evs : list (event * Element)) (st : state) :
  corrupt_node evs → raises (loop evs st).
Proof.
  revert st. induction evs as [|[ev elem] evs IH]; intros st (e & Hin & Ht & Hbad).
  - by apply elem_of_nil in Hin.
  - simpl. destruct (step ev elem st) as [st1|err] eqn:Hstep; simpl.
    + apply elem_of_cons in Hin as [[= <- <-]|Hin].
      * simpl in Hstep. rewrite on_end_node in Hstep by done.
        destruct (end_node_raises e st Hbad) as [err Herr]. congruence.
      * apply IH. by exists e.
    + by exists err.
Qed.

Lemma resolved_rings_filter (role : string) (st : state) :
  Forall2 (stored_ring st)
    (filter (resolves_as role st) (current_members st))
    (resolved_rings role st).
Proof.
  unfold resolved_rings. induction (current_members st) as [|m ms IH].
  - constructor.
  - cbn [omap list_omap]. rewrite filter_cons.
    destruct (decide (resolves_as role st m)) as [[Hr [w Hw]]|Hn].
    + rewrite bool_decide_eq_true_2 by done. rewrite Hw. simpl.
      constructor; [by exists w|exact IH].
    + case_bool_decide as Hrole; [|exact IH].
      destruct (ways st !! m_ref m) as [w|] eqn:Hw; [|exact IH].
      exfalso. apply Hn. split; [done|by eexists].
Qed.

(** C6: a ref that does not resolve never raises and is dropped. A document
    whose nodes all parse compiles whatever its refs; a way is stored with
    the coordinates of its refs that are in the node registry, in their
    order, the others dropped. A relation never raises either: a
    multipolygon or boundary takes the stored rings of exactly the outer and
    inner members whose ref is in the way registry, in their order, and emits
    nothing when no outer member is left; a route or restriction emits, member
    by member, what [member_yields] allows, which for a member whose ref is in
    no registry is nothing; any other relation emits nothing. In every case
    there are at most as many new features as members. *)
Theorem unresolved_refs_are_dropped (doc : document) (elem : Element)
    (st : state) :
  (malformed doc = false → parsable_nodes (events doc) →
     ∃ fs, pass doc = Ok fs) ∧
  (tag elem = "way" →
     ∃ st' w,
       step ev_end elem st = Ok st' ∧
       ways st' !! get elem "id" = Some w ∧
       Forall2 (fun r c => nodes st !! r = Some c)
         (filter (fun r => is_Some (nodes st !! r)) (current_refs st))
         (coords w) ∧
       length (coords w) ≤ length (current_refs st)) ∧
  (tag elem = "relation" →
     ∃ st' new,
       step ev_end elem st = Ok st' ∧
       features st' = features st ++ new ∧
       length new ≤ length (current_members st) ∧
       (rel_type_of (current_tags st)
          ∈ [Some "multipolygon"; Some "boundary"] →
        ∃ outer inner,
          Forall2 (stored_ring st)
            (filter (resolves_as "outer" st) (current_members st)) outer ∧
          Forall2 (stored_ring st)
            (filter (resolves_as "inner" st) (current_members st)) inner ∧
          (outer = [] → new = []) ∧
          (outer ≠ [] →
           ∃ f, new = [f] ∧ geometry f = MultiPolygon [outer ++ inner])) ∧
       (rel_type_of (current_tags st) ∈ [Some "route"; Some "restriction"] →
        ∃ fss,
          new = concat fss ∧
          Forall2
            (member_yields (nodes st) (ways st) (current_tags st)
               (get elem "id"))
            (current_members st) fss ∧
          Forall2
            (fun m fs =>
               nodes st !! m_ref m = None → ways st !! m_ref m = None →
               fs = [])
            (current_members st) fss) ∧
       (rel_type_of (current_tags st)
          ∉ [Some "multipolygon"; Some "boundary";
             Some "route"; Some "restriction"] →
        new = [])).
Proof.
  split; [|split].
  - intros Hwf Hp. unfold pass.
    destruct (loop_ok (events doc) initial Hp) as [st' ->]. simpl.
    rewrite Hwf. by eexists.
  - intros Htag. simpl. rewrite on_end_way by done.
    destruct (end_way_ok elem st) as (st' & Hrun & _ & Hw & _).
    eexists st', _. split; [done|]. rewrite Hw, lookup_insert_eq.
    split; [done|]. simpl. unfold resolved_coords.
    induction (current_refs st) as [|r rs [IH1 IH2]].
    + split; [constructor|done].
    + rewrite filter_cons. cbn [omap list_omap].
      destruct (nodes st !! r) as [c|] eqn:Hr.
      * rewrite decide_True by by eexists.
        split; [by constructor|simpl; lia].
      * rewrite decide_False by by intros [? ?].
        split; [done|simpl; lia].
  - intros Htag. simpl. rewrite on_end_relation by done.
    unfold end_relation. cbv zeta. case_bool_decide as Harea.
    + rewrite !rings_ok. simpl.
      pose proof (resolved_rings_filter "outer" st) as Hout.
      pose proof (resolved_rings_filter "inner" st) as Hin.
      pose proof (resolved_rings_length "outer" st) as Hlen.
      pose proof (length_filter (resolves_as "outer" st) (current_members st))
        as Hle.
      destruct (resolved_rings "outer" st) as [|o os] eqn:Ho.
      * exists st, []. rewrite app_nil_r. do 2 (split; [done|]).
        split; [simpl; lia|]. split; [|split].
        -- intros _. exists [], (resolved_rings "inner" st).
           do 3 (split; [done|]). done.
        -- intros Hroute. apply route_type_not_area in Hroute.
           by rewrite bool_decide_eq_true_2 in Hroute.
        -- intros Hnot. exfalso. apply Hnot.
           apply elem_of_cons in Harea as [->|Harea]; [left|].
           apply elem_of_cons in Harea as [->|Harea]; [right; left|].
           by apply elem_of_nil in Harea.
      * eexists _, [_]. split; [reflexivity|]. simpl. split; [done|].
        split; [simpl in Hlen; lia|]. split; [|split].
        -- intros _. exists (o :: os), (resolved_rings "inner" st).
           do 2 (split; [done|]). split; [done|]. intros _.
           eexists. split; [reflexivity|done].
        -- intros Hroute. apply route_type_not_area in Hroute.
           by rewrite bool_decide_eq_true_2 in Hroute.
        -- intros Hnot. exfalso. apply Hnot.
           apply elem_of_cons in Harea as [->|Harea]; [left|].
           apply elem_of_cons in Harea as [->|Harea]; [right; left|].
           by apply elem_of_nil in Harea.
    + case_bool_decide as Hroute.
      * destruct (for_members_spec (get elem "id") (current_members st) st)
          as (st' & fss & Hrun & (_ & _ & _ & _ & Hf) & Hys).
        pose proof (member_yields_keys _ _ _ _ _ _ Hys) as [Hlen _].
        exists st', (concat fss). do 3 (split; [done|]). split; [done|].
        split.
        -- intros _. exists fss. do 2 (split; [done|]).
           eapply Forall2_impl; [exact Hys|].
           intros m fs [(_ & c & f & Hc & _)|[(_ & w & f & Hw & _)|(_ & _ & ->)]]
                  Hnone Hwnone; [congruence|congruence|done].
        -- intros Hnot. exfalso. apply Hnot.
           apply elem_of_cons in Hroute as [->|Hroute]; [do 2 right; left|].
           apply elem_of_cons in Hroute as [->|Hroute]; [do 3 right; left|].
           by apply elem_of_nil in Hroute.
      * exists st, []. rewrite app_nil_r. do 2 (split; [done|]).
        split; [simpl; lia|]. do 2 (split; [done|]). done.
Qed.

(** ** The whole call *)

Context (dump : @json float → string) {clock : Type}
        (report : clock → clock → string).

(** C7: when the longitude or the latitude of a node of the document does
    not parse as a float, or the XML is malformed, the call raises and
    no file is written. *)
Theorem parse_failure_writes_nothing (start_time end_time : clock)
    (doc : document) :
  corrupt_node (events doc) ∨ malformed doc = true →
  ∃ e, osm_to_geojson dump clock report start_time end_time doc =
       {| raised := Some e; output_file := None; printed := None |}.
Proof.
  intros Hbad. unfold osm_to_geojson.
  assert (raises (pass doc)) as [e ->]; [|by exists e].
  unfold pass. destruct Hbad as [Hbad|Hbad].
  - destruct (loop_raises (events doc) initial Hbad) as [e ->]. by exists e.
  - destruct (loop (events doc) initial) as [st|e]; simpl.
    + rewrite Hbad. by eexists.
    + by exists e.
Qed.
End Properties.

(** ** A pass consults [float] on the coordinate literals only *)

Lemma step_table {float : Type} (PF : PyFloat float)
    (tbl : list (string * float)) (ev : event) (elem : Element)
    (st : state (float := float)) :
  Forall (fun s => float_of_string s = PyDict.get s tbl)
    (coordinate_literals [(ev, elem)]) →
  step (PF := with_table PF tbl) ev elem st = step (PF := PF) ev elem st.
Proof.
  intros Hlit. destruct ev; [done|]. simpl in *.
  destruct (decide (tag elem = "node")) as [Hnode|Hother].
  - rewrite !on_end_node by done.
    rewrite bool_decide_eq_true_2, app_nil_r in Hlit by done.
    apply Forall_app in Hlit as [Hlon Hlat].
    unfold end_node, py_float.
    destruct (get elem "lon") as [lon|], (get elem "lat") as [lat|];
      simpl in *; try done.
    + rewrite Forall_singleton in Hlon. rewrite Forall_singleton in Hlat.
      by rewrite Hlon, Hlat.
    + rewrite Forall_singleton in Hlon. by rewrite Hlon.
  - unfold on_end. repeat case_bool_decide; done.
Qed.

Lemma loop_table {float : Type} (PF : PyFloat float)
    (tbl : list (string * float)) (evs : list (event * Element))
    (st : state (float := float)) :
  Forall (fun s => float_of_string s = PyDict.get s tbl)
    (coordinate_literals evs) →
  loop (PF := with_table PF tbl) evs st = loop (PF := PF) evs st.
Proof.
  revert st. induction evs as [|[ev elem] evs IH]; intros st Hlit; [done|].
  assert (coordinate_literals ((ev, elem) :: evs) =
          coordinate_literals [(ev, elem)] ++ coordinate_literals evs) as Hcons
    by (unfold coordinate_literals; simpl; by rewrite app_nil_r).
  rewrite Hcons in Hlit. apply Forall_app in Hlit as [Hhd Htl].
  cbn [loop]. rewrite step_table by done.
  destruct (step ev elem st) as [st'|e]; simpl; [by apply IH|done].
Qed.

(** ** The reference fixture *)

(** C5, as the code has it: on the document of the reference test the pass
    emits nine features, in this order: the Point of node 1; the LineString
    of way 10 and the Polygon of way 11 (way 12 has no tag and emits
    nothing); the MultiPolygon of relation 100, with two rings; the
    MultiPolygon of relation 200; for relation 300 a LineString with
    [rel_role] track and a Point with [rel_role] stop, both with [ref] 201;
    for relation 400 a LineString with [rel_role] from and a Point with
    [rel_role] via. This holds for every float model that reads the
    coordinates of the fixture and tells 32.8720 from 32.8730. *)
Theorem fixture_features {float : Type} (PF : PyFloat float) :
  Forall (fun s => is_Some (float_of_string s))
    (coordinate_literals (events Fixture.doc)) →
  (∀ a b, float_of_string "32.8720" = Some a →
          float_of_string "32.8730" = Some b → float_eq a b = false) →
  ∃ fs, pass Fixture.doc = Ok fs ∧
        map summary fs = Fixture.expected ∧ length fs = 9.
Proof.
  intros Hparse Hne.
  assert (coordinate_literals (events Fixture.doc) =
          ["-117.2110"; "32.8715"; "-117.2120"; "32.8720"; "-117.2120";
           "32.8730"; "-117.2110"; "32.8730"; "-117.2115"; "32.8725"]) as Hl
    by (vm_compute; reflexivity).
  rewrite Hl in Hparse. clear Hl.
  apply Forall_cons in Hparse as [[v2 E2] Hparse].
  apply Forall_cons in Hparse as [[v1 E1] Hparse].
  apply Forall_cons in Hparse as [[v4 E4] Hparse].
  apply Forall_cons in Hparse as [[v3 E3] Hparse].
  apply Forall_cons in Hparse as [_ Hparse].
  apply Forall_cons in Hparse as [[v5 E5] Hparse].
  apply Forall_cons in Hparse as [_ Hparse].
  apply Forall_cons in Hparse as [_ Hparse].
  apply Forall_cons in Hparse as [[v7 E7] Hparse].
  apply Forall_cons in Hparse as [[v6 E6] _].
  specialize (Hne _ _ E3 E5).
  set (tbl := [("32.8715", v1); ("-117.2110", v2); ("32.8720", v3);
               ("-117.2120", v4); ("32.8730", v5); ("32.8725", v6);
               ("-117.2115", v7)]).
  unfold pass. rewrite <- (loop_table PF tbl).
  - vm_compute. unfold float_eq in Hne. rewrite Hne.
    match goal with
    | |- context [if ?c then false else false] => destruct c
    end; by eexists.
  - let l := eval vm_compute in (coordinate_literals (events Fixture.doc)) in
    change (coordinate_literals (events Fixture.doc)) with l.
    repeat constructor; (etrans; [eassumption|reflexivity]).
Qed.

Lemma fixture_features_witness :
  ∃ fs, pass (PF := Decimal.model) Fixture.doc = Ok fs ∧
        map summary fs = Fixture.expected ∧ length fs = 9.
Proof.
  apply (fixture_features Decimal.model).
  - apply Forall_forall. intros s Hs.
    assert (s ∈ ["-117.2110"; "32.8715"; "-117.2120"; "32.8720"; "-117.2120";
                 "32.8730"; "-117.2110"; "32.8730"; "-117.2115"; "32.8725"])
      as Hin by exact Hs.
    clear Hs.
    repeat (apply elem_of_cons in Hin as [->|Hin]; [by eexists|]).
    by apply elem_of_nil in Hin.
  - intros a b Ha Hb. injection Ha as <-. injection Hb as <-. reflexivity.
Defined.

(** The fixture does not give ten features, and none of them comes from
    way 12. *)
Lemma fixture_not_ten_features :
  ¬ ∃ fs, pass (PF := Decimal.model) Fixture.doc = Ok fs ∧
          (length fs = 10 ∨
           ∃ f, f ∈ fs ∧
                PyDict.get (Some "osm_id") (properties f) = Some (Some "12")).
Proof.
  intros (fs & Hrun & Hbad). vm_compute in Hrun. injection Hrun as <-.
  destruct Hbad as [Hlen|(f & Hin & Hid)]; [discriminate|].
  repeat (apply elem_of_cons in Hin as [->|Hin]; [discriminate|]).
  by apply elem_of_nil in Hin.
Qed.

(** ** The statements on small inputs *)

Lemma way_geometry_witness :
  tag Examples.way_11 = "way" ∧
  current_tags Examples.ring_state ≠ [] ∧
  ∃ f st',
    step (PF := Decimal.model) ev_end Examples.way_11 Examples.ring_state
      = Ok st' ∧
    features st' = [f] ∧
    (geometry_type (geometry f) = "Polygon" ↔
     closed (PF := Decimal.model) (resolved_coords Examples.ring_state)).
Proof.
  split; [reflexivity|]. split; [discriminate|].
  destruct (way_geometry (PF := Decimal.model)
              Examples.way_11 Examples.ring_state)
    as (f & st' & Hrun & Hf & Hiff & _); [reflexivity|discriminate|].
  exists f, st'. split; [exact Hrun|]. split; [exact Hf|exact Hiff].
Defined.

Lemma short_way_is_linestring_witness :
  tag Examples.way_11 = "way" ∧
  ∃ st',
    step (PF := Decimal.model) ev_end Examples.way_11 Examples.dangling_state
      = Ok st' ∧
    ways st' !! Some "11" =
      Some {| coords := []; tags := [(Some "highway", Some "path")] |}.
Proof.
  split; [reflexivity|].
  destruct (short_way_is_linestring (PF := Decimal.model)
              Examples.way_11 Examples.dangling_state)
    as (st' & Hrun & Hw & _); [reflexivity|].
  exists st'. split; [exact Hrun|exact Hw].
Defined.

Lemma node_finalization_witness :
  tag Examples.node_7 = "node" ∧
  parses_to (PF := Decimal.model) (get Examples.node_7 "lon") ((-1172110)%Z, 4) ∧
  parses_to (PF := Decimal.model) (get Examples.node_7 "lat") (328715%Z, 4) ∧
  ∃ st' c,
    step (PF := Decimal.model) ev_end Examples.node_7 Examples.ring_state
      = Ok st' ∧
    nodes st' = <[Some "7" := c]> (nodes Examples.ring_state).
Proof.
  split; [reflexivity|]. split; [reflexivity|]. split; [reflexivity|].
  destruct (node_finalization (PF := Decimal.model)
              Examples.node_7 Examples.ring_state
              ((-1172110)%Z, 4) (328715%Z, 4))
    as (st' & c & Hrun & _ & _ & Hn & _); [reflexivity..|].
  exists st', c. split; [exact Hrun|exact Hn].
Defined.

Lemma multipolygon_relation_witness :
  tag Examples.relation_100 = "relation" ∧
  rel_type_of (current_tags (Examples.relation_state "multipolygon"))
    ∈ [Some "multipolygon"; Some "boundary"] ∧
  ∃ st',
    step (PF := Decimal.model) ev_end Examples.relation_100
      (Examples.relation_state "multipolygon") = Ok st' ∧
    (¬ Exists (resolves_as "outer" (Examples.relation_state "multipolygon"))
         (current_members (Examples.relation_state "multipolygon")) →
     features st' = []).
Proof.
  split; [reflexivity|]. split; [left|].
  destruct (multipolygon_relation (PF := Decimal.model)
              Examples.relation_100 (Examples.relation_state "multipolygon"))
    as (st' & Hrun & _ & Hnone); [reflexivity|left|].
  exists st'. split; [exact Hrun|exact Hnone].
Defined.

Lemma route_relation_witness :
  tag Examples.relation_100 = "relation" ∧
  rel_type_of (current_tags (Examples.relation_state "route"))
    ∈ [Some "route"; Some "restriction"] ∧
  ∃ st' fss,
    step (PF := Decimal.model) ev_end Examples.relation_100
      (Examples.relation_state "route") = Ok st' ∧
    features st' = concat fss ∧ length fss = 4.
Proof.
  split; [reflexivity|]. split; [left|].
  destruct (route_relation (PF := Decimal.model)
              Examples.relation_100 (Examples.relation_state "route"))
    as (st' & fss & Hrun & Hf & Hys); [reflexivity|left|].
  exists st', fss. split; [exact Hrun|]. split; [exact Hf|].
  symmetry. exact (Forall2_length _ _ _ Hys).
Defined.

Lemma reserved_keys_override_witness :
  ∃ st',
    step (PF := Decimal.model) ev_end Examples.way_11 Examples.ring_state
      = Ok st' ∧
    ∃ new, features st' = new ∧
      Forall (fun f => PyDict.get (Some "osm_id") (properties f)
                       = Some (Some "11")) new.
Proof.
  eexists. split; [reflexivity|].
  destruct (reserved_keys_override (PF := Decimal.model) ev_end
              Examples.way_11 Examples.ring_state _ eq_refl)
    as (new & Hf & Hid & _).
  exists new. split; [exact Hf|exact Hid].
Defined.

Lemma unresolved_refs_are_dropped_witness :
  malformed Examples.dangling_doc = false ∧
  parsable_nodes (PF := Decimal.model) (events Examples.dangling_doc) ∧
  ∃ fs, pass (PF := Decimal.model) Examples.dangling_doc = Ok fs.
Proof.
  assert (parsable_nodes (PF := Decimal.model) (events Examples.dangling_doc))
    as Hp.
  { intros elem Hin Htag.
    let l := eval vm_compute in (events Examples.dangling_doc) in
    change (events Examples.dangling_doc) with l in Hin.
    repeat (apply elem_of_cons in Hin as [Hin|Hin];
            [first [discriminate Hin|injection Hin as ->];
             first [discriminate Htag
                   |split; [by exists ((-1172110)%Z, 4)|by exists (328715%Z, 4)]]
            |]).
    by apply elem_of_nil in Hin. }
  split; [reflexivity|]. split; [exact Hp|].
  exact (proj1 (unresolved_refs_are_dropped (PF := Decimal.model)
                  Examples.dangling_doc Examples.way_11 Examples.ring_state)
           eq_refl Hp).
Defined.

Lemma parse_failure_writes_nothing_witness :
  (corrupt_node (PF := Decimal.model) (events Examples.corrupt_doc) ∨
   malformed Examples.corrupt_doc = true) ∧
  ∃ e, osm_to_geojson (PF := Decimal.model) (fun _ => "") nat (fun _ _ => "")
         0 1 Examples.corrupt_doc =
       {| raised := Some e; output_file := None; printed := None |}.
Proof.
  assert (corrupt_node (PF := Decimal.model) (events Examples.corrupt_doc))
    as Hbad.
  { exists (element "node" [("id", "1"); ("lat", "32.8715"); ("lon", "west")]).
    split; [|split; [reflexivity|left; reflexivity]].
    vm_compute. right. right. left. }
  split; [by left|].
  apply (parse_failure_writes_nothing (PF := Decimal.model)). by left.
Defined.

(** * What every step does *)

(** The tag at hand is that of a primitive. *)
Ltac is_primitive :=
  unfold primitive;
  match goal with H : tag _ = _ |- _ => rewrite H end;
  apply list_elem_of_In; simpl; tauto.

(** Decide the tests on a tag from the hypotheses at hand. *)
Ltac settle_tags :=
  repeat first
    [ rewrite bool_decide_eq_true_2 by congruence
    | rewrite bool_decide_eq_false_2 by congruence
    | rewrite decide_True by congruence
    | rewrite decide_False by congruence ].

(** The tag at hand is not that of a primitive. *)
Ltac not_primitive :=
  let Hp := fresh "Hp" in
  intros [_ Hp]; unfold primitive in Hp;
  repeat (apply elem_of_cons in Hp as [Hp|Hp]; [congruence|]);
  by apply elem_of_nil in Hp.

Section Steps.
Context {float : Type} {PF : PyFloat float}.
Local Abbreviation coord := (@coord float).
Local Abbreviation way_entry := (@way_entry float).
Local Abbreviation feature := (@feature float).
Local Abbreviation state := (@state float).

Lemma add_features_nil (st : state) : add_features [] st = st.
Proof. destruct st. unfold add_features. simpl. by rewrite app_nil_r. Qed.

Lemma add_features_app (fs gs : list feature) (st : state) :
  add_features gs (add_features fs st) = add_features (fs ++ gs) st.
Proof. unfold add_features. simpl. by rewrite app_assoc. Qed.

Lemma set_scratch_same (st : state) :
  set_scratch st (current_tags st) (current_refs st) (current_members st) = st.
Proof. by destruct st. Qed.

Lemma route_member_shape (r_id : pystr) (m : member) (st : state) :
  ∃ new, route_member r_id m st = Ok (add_features new st) ∧
         Forall (emitted_by (current_tags st) r_id) new ∧ length new ≤ 1.
Proof.
  unfold route_member, getitem, contains.
  destruct (bool_decide (m_type m = Some "node")); simpl.
  - destruct (nodes st !! m_ref m) as [c|]; simpl.
    + eexists [_]. split; [reflexivity|]. split; [|simpl; lia].
      constructor; [|constructor]. right. by eexists.
    + destruct (bool_decide (m_type m = Some "way")); simpl;
        [destruct (ways st !! m_ref m) as [w|]; simpl|].
      * eexists [_]. split; [reflexivity|]. split; [|simpl; lia].
        constructor; [|constructor]. right. by eexists.
      * exists []. rewrite add_features_nil. split; [done|].
        split; [constructor|simpl; lia].
      * exists []. rewrite add_features_nil. split; [done|].
        split; [constructor|simpl; lia].
  - destruct (bool_decide (m_type m = Some "way")); simpl;
      [destruct (ways st !! m_ref m) as [w|]; simpl|].
    + eexists [_]. split; [reflexivity|]. split; [|simpl; lia].
      constructor; [|constructor]. right. by eexists.
    + exists []. rewrite add_features_nil. split; [done|].
      split; [constructor|simpl; lia].
    + exists []. rewrite add_features_nil. split; [done|].
      split; [constructor|simpl; lia].
Qed.

Lemma for_members_shape (r_id : pystr) (ms : list member) (st : state) :
  ∃ new, for_members r_id ms st = Ok (add_features new st) ∧
         Forall (emitted_by (current_tags st) r_id) new ∧
         length new ≤ length ms.
Proof.
  revert st. induction ms as [|m ms IH]; intros st.
  - exists []. rewrite add_features_nil. split; [done|]. split; [constructor|done].
  - destruct (route_member_shape r_id m st) as (new1 & Hrun1 & Hall1 & Hlen1).
    destruct (IH (add_features new1 st)) as (new2 & Hrun2 & Hall2 & Hlen2).
    exists (new1 ++ new2). simpl. rewrite Hrun1. simpl.
    rewrite Hrun2, add_features_app. split; [done|].
    split; [by apply Forall_app|]. rewrite length_app. lia.
Qed.

Lemma end_relation_shape (elem : Element) (st : state) :
  ∃ new, end_relation elem st = Ok (add_features new st) ∧
         Forall (emitted_by (current_tags st) (get elem "id")) new.
Proof.
  unfold end_relation. cbv zeta. case_bool_decide.
  - rewrite !rings_ok. simpl.
    destruct (resolved_rings "outer" st) as [|o os].
    + exists []. rewrite add_features_nil. split; [done|constructor].
    + eexists [_]. split; [reflexivity|].
      constructor; [|constructor]. by left.
  - case_bool_decide.
    + destruct (for_members_shape (get elem "id") (current_members st) st)
        as (new & Hrun & Hall & _). by exists new.
    + exists []. rewrite add_features_nil. split; [done|constructor].
Qed.

Lemma end_way_shape (elem : Element) (st : state) :
  ∃ new, end_way elem st =
           Ok (add_features new
                 (with_way (get elem "id")
                    {| coords := resolved_coords st;
                       tags := current_tags st |} st)) ∧
         Forall (emitted_by (current_tags st) (get elem "id")) new ∧
         (current_tags st = [] → new = []).
Proof.
  unfold end_way. rewrite resolve_refs_ok. simpl.
  destruct (current_tags st) as [|kv tgs] eqn:Htags; simpl.
  - exists []. rewrite add_features_nil. unfold with_way. rewrite Htags.
    split; [done|]. split; [constructor|done].
  - destruct (is_polygon_spec (resolved_coords st)) as (b & -> & _). simpl.
    eexists [_]. unfold add_features, with_way, append_feature. simpl.
    rewrite Htags. split; [reflexivity|]. split; [|done].
    constructor; [|constructor]. by left.
Qed.

Lemma end_node_shape (elem : Element) (st st' : state) :
  end_node elem st = Ok st' →
  ∃ x y new,
    parses_to (get elem "lon") x ∧ parses_to (get elem "lat") y ∧
    st' = add_features new (with_node (get elem "id") x y st) ∧
    Forall (emitted_by (current_tags st) (get elem "id")) new ∧
    (current_tags st = [] → new = []).
Proof.
  unfold end_node, py_float, parses_to.
  destruct (get elem "lon") as [lon|]; [simpl|done].
  destruct (float_of_string lon) as [x|]; [simpl|done].
  destruct (get elem "lat") as [lat|]; [simpl|done].
  destruct (float_of_string lat) as [y|]; [simpl|done].
  destruct (current_tags st) as [|kv tgs] eqn:Htags; simpl; intros [= <-].
  - exists x, y, []. rewrite add_features_nil. unfold with_node.
    rewrite Htags. do 3 (split; [done|]). split; [constructor|done].
  - exists x, y. eexists [_]. do 2 (split; [done|]).
    unfold add_features, with_node, append_feature. simpl. rewrite Htags.
    split; [reflexivity|]. split; [|done].
    constructor; [|constructor]. by left.
Qed.

(** Every step is one of four changes followed by appended features. *)
Lemma step_shape (ev : event) (elem : Element) (st st' : state) :
  step ev elem st = Ok st' →
  ∃ base new,
    changes ev elem st base ∧ st' = add_features new base ∧
    Forall (emitted_by (current_tags st) (get elem "id")) new ∧
    (¬ (ev = ev_end ∧ primitive (tag elem)) → new = []).
Proof.
  assert (∀ tgs refs ms,
            (tgs = [] ∨ tgs = current_tags st ∨
             ∃ k v, tgs = PyDict.set k v (current_tags st)) →
            ¬ (ev = ev_end ∧ primitive (tag elem)) →
            ∃ base new,
              changes ev elem st base ∧
              set_scratch st tgs refs ms = add_features new base ∧
              Forall (emitted_by (current_tags st) (get elem "id")) new ∧
              (¬ (ev = ev_end ∧ primitive (tag elem)) → new = []))
    as Hscratch.
  { intros tgs refs ms Htgs Hnp. exists (set_scratch st tgs refs ms), [].
    split; [by constructor|]. by rewrite add_features_nil. }
  assert (¬ (ev = ev_end ∧ primitive (tag elem)) →
          ∃ base new,
            changes ev elem st base ∧ st = add_features new base ∧
            Forall (emitted_by (current_tags st) (get elem "id")) new ∧
            (¬ (ev = ev_end ∧ primitive (tag elem)) → new = []))
    as Hsame.
  { intros Hnp. exists st, []. rewrite add_features_nil. split; [|done].
    pose proof (changes_scratch ev elem st (current_tags st)
                  (current_refs st) (current_members st)) as Hc.
    rewrite set_scratch_same in Hc. apply Hc; [by right; left|done]. }
  destruct ev; simpl.
  - intros [= <-]. unfold on_start. case_bool_decide.
    + apply (Hscratch [] [] []); [by left|]. by intros [? _].
    + apply Hsame. by intros [? _].
  - unfold on_end. repeat case_bool_decide.
    + intros [= <-]. apply (Hscratch _ (current_refs st) (current_members st)).
      * right; right. by eexists _, _.
      * not_primitive.
    + intros [= <-].
      apply (Hscratch (current_tags st) _ (current_members st)).
      * by right; left.
      * not_primitive.
    + intros [= <-].
      apply (Hscratch (current_tags st) (current_refs st) _).
      * by right; left.
      * not_primitive.
    + intros Hrun.
      apply end_node_shape in Hrun as (x & y & new & Hx & Hy & -> & Hall & _).
      eexists _, new. split; [by apply (changes_node _ _ _ x y)|].
      do 2 (split; [done|]). intros Hnp. exfalso. apply Hnp.
      split; [done|]. is_primitive.
    + intros Hrun.
      destruct (end_way_shape elem st) as (new & Hrun' & Hall & _).
      rewrite Hrun' in Hrun. injection Hrun as <-.
      eexists _, new. split; [by apply changes_way|].
      do 2 (split; [done|]). intros Hnp. exfalso. apply Hnp.
      split; [done|]. is_primitive.
    + intros Hrun.
      destruct (end_relation_shape elem st) as (new & Hrun' & Hall).
      rewrite Hrun' in Hrun. injection Hrun as <-.
      exists st, new. split; [by apply changes_relation|].
      do 2 (split; [done|]). intros Hnp. exfalso. apply Hnp.
      split; [done|]. is_primitive.
    + intros [= <-]. apply Hsame.
      not_primitive.
Qed.
End Steps.

(** * More properties of the compiler *)

(** ** The tag dictionary *)

Lemma set_keys (k x : pystr) (v : pystr) (d : list (pystr * pystr)) :
  x ∈ map fst (PyDict.set k v d) ↔ x = k ∨ x ∈ map fst d.
Proof.
  induction d as [|[k0 v0] d IH]; simpl.
  - rewrite list_elem_of_singleton. split; [by left|].
    intros [?|Hin]; [done|]. by apply elem_of_nil in Hin.
  - case_decide as Hk; simpl; rewrite !elem_of_cons.
    + subst k0. tauto.
    + rewrite IH. tauto.
Qed.

Lemma set_keys_unique (k v : pystr) (d : list (pystr * pystr)) :
  keys_unique d → keys_unique (PyDict.set k v d).
Proof.
  unfold keys_unique. induction d as [|[k0 v0] d IH]; simpl.
  - intros _. apply NoDup_singleton.
  - rewrite NoDup_cons. intros [Hk0 Hd]. case_decide as Hk; simpl.
    + apply NoDup_cons. done.
    + apply NoDup_cons. split; [|by apply IH].
      rewrite set_keys. intros [?|?]; congruence.
Qed.

Lemma get_assign_all (kvs d : list (pystr * pystr)) (k : pystr) :
  PyDict.get k (assign_all kvs d) =
  match PyDict.get k (reverse kvs) with
  | Some v => Some v
  | None => PyDict.get k d
  end.
Proof.
  unfold assign_all. revert d. induction kvs as [|[k0 v0] kvs IH]; intros d.
  - done.
  - simpl. rewrite IH, reverse_cons.
    assert (∀ l : list (pystr * pystr),
              PyDict.get k (l ++ [(k0, v0)]) =
              match PyDict.get k l with
              | Some v => Some v
              | None => if decide (k = k0) then Some v0 else None
              end) as Happ.
    { induction l as [|[k1 v1] l IHl]; simpl; [by case_decide|].
      destruct (decide (k = k1)); simpl; [done|apply IHl]. }
    rewrite Happ, get_set.
    destruct (PyDict.get k (reverse kvs)); [done|]. by case_decide.
Qed.

(** X1: when an element has several [tag] children with one key, the last
    of them wins: the tag map its children build answers, for every key,
    with the value of the last [tag] child that has this key, and with
    nothing when there is none. *)
Theorem last_tag_wins (cs : list Element) (k : pystr) :
  PyDict.get k (tags_of cs) = PyDict.get k (reverse (tag_pairs cs)).
Proof.
  unfold tags_of. rewrite get_assign_all.
  by destruct (PyDict.get k (reverse (tag_pairs cs))).
Qed.

Section Pass.
Context {float : Type} {PF : PyFloat float}.
Local Abbreviation coord := (@coord float).
Local Abbreviation way_entry := (@way_entry float).
Local Abbreviation feature := (@feature float).
Local Abbreviation state := (@state float).

(** ** Streams *)

(** X2: a stream in two parts is processed as its first part, then its
    second part from the state the first leaves; when the first part raises,
    the second is never looked at. *)
Theorem loop_app (evs1 evs2 : list (event * Element)) (st : state) :
  loop (evs1 ++ evs2) st =
  match loop evs1 st with
  | Ok st1 => loop evs2 st1
  | Raise e => Raise e
  end.
Proof.
  revert st. induction evs1 as [|[ev elem] evs1 IH]; intros st; [done|].
  simpl. destruct (step ev elem st) as [st1|e]; simpl; [apply IH|done].
Qed.

(** ** Registries *)

(** X3: the node registry and the float heap change only at the end of a
    node, the way registry only at the end of a way: tags, refs, members,
    starts and relations leave both registries as they are, so a relation
    is never stored. *)
Theorem registries_change_at_their_primitive (ev : event) (elem : Element)
    (st st' : state) :
  step ev elem st = Ok st' →
  (¬ (ev = ev_end ∧ tag elem = "node") →
     nodes st' = nodes st ∧ heap st' = heap st) ∧
  (¬ (ev = ev_end ∧ tag elem = "way") → ways st' = ways st).
Proof.
  intros Hstep.
  apply step_shape in Hstep as (base & new & Hch & -> & _). simpl.
  destruct Hch; simpl; split; try done; intros Hn; by destruct Hn.
Qed.

Lemma step_monotone (ev : event) (elem : Element) (st st' : state) :
  step ev elem st = Ok st' →
  features st `prefix_of` features st' ∧
  dom (nodes st) ⊆ dom (nodes st') ∧
  dom (ways st) ⊆ dom (ways st') ∧
  heap st ≤ heap st'.
Proof.
  intros Hstep.
  apply step_shape in Hstep as (base & new & Hch & -> & _). simpl.
  destruct Hch; simpl.
  - split; [by eexists|]. done.
  - split; [by eexists|]. split; [|split; [done|lia]].
    rewrite dom_insert_L. set_solver.
  - split; [by eexists|]. split; [done|]. split; [|done].
    rewrite dom_insert_L. set_solver.
  - split; [by eexists|]. done.
Qed.

(** X4: a pass only adds: the features it starts from are a prefix of the
    features it ends with, and every id in a registry stays in it. *)
Theorem pass_only_adds (evs : list (event * Element)) (st st' : state) :
  loop evs st = Ok st' →
  features st `prefix_of` features st' ∧
  dom (nodes st) ⊆ dom (nodes st') ∧
  dom (ways st) ⊆ dom (ways st') ∧
  heap st ≤ heap st'.
Proof.
  revert st. induction evs as [|[ev elem] evs IH]; intros st.
  - intros [= <-]. done.
  - simpl. destruct (step ev elem st) as [st1|e] eqn:Hstep; [simpl|done].
    intros Hrun. apply step_monotone in Hstep as (Hf & Hn & Hw & Hh).
    apply IH in Hrun as (Hf' & Hn' & Hw' & Hh').
    split; [by etrans|]. split; [by etrans|]. split; [by etrans|lia].
Qed.

(** X5: a registry entry is final until a primitive of the same kind and
    the same id ends: the coordinates a way resolved to are not revisited
    when nodes arrive later, and a node keeps its coordinate. *)
Theorem registry_entries_are_final (id : pystr)
    (evs : list (event * Element)) (st st' : state) :
  loop evs st = Ok st' →
  ((∀ elem, (ev_end, elem) ∈ evs → tag elem = "way" → get elem "id" ≠ id) →
     ways st' !! id = ways st !! id) ∧
  ((∀ elem, (ev_end, elem) ∈ evs → tag elem = "node" → get elem "id" ≠ id) →
     nodes st' !! id = nodes st !! id).
Proof.
  revert st. induction evs as [|[ev elem] evs IH]; intros st.
  - intros [= <-]. done.
  - simpl. destruct (step ev elem st) as [st1|e] eqn:Hstep; [simpl|done].
    intros Hrun. apply IH in Hrun as [Hw Hn].
    apply step_shape in Hstep as (base & new & Hch & -> & _).
    split; intros Hid.
    + rewrite Hw by (intros e ?; apply Hid; by right). simpl.
      destruct Hch; simpl; try done. subst ev.
      apply lookup_insert_ne, Hid; [left|done].
    + rewrite Hn by (intros e ?; apply Hid; by right). simpl.
      destruct Hch; simpl; try done. subst ev.
      apply lookup_insert_ne, Hid; [left|done].
Qed.
End Pass.

Section Documents.
Context {float : Type} {PF : PyFloat float}.
Local Abbreviation coord := (@coord float).
Local Abbreviation way_entry := (@way_entry float).
Local Abbreviation feature := (@feature float).
Local Abbreviation state := (@state float).

(** ** Every feature of a document *)

Lemma emitted_by_keys_unique (tgs : list (pystr * pystr)) (id : pystr)
    (f : feature) :
  keys_unique tgs → emitted_by tgs id f → keys_unique (properties f).
Proof.
  intros Htgs [->|[role ->]]; by repeat apply set_keys_unique.
Qed.

Lemma emitted_by_osm_id (tgs : list (pystr * pystr)) (id : pystr)
    (f : feature) :
  emitted_by tgs id f → PyDict.get (Some "osm_id") (properties f) = Some id.
Proof.
  intros [->|[role ->]]; rewrite get_set; by case_decide.
Qed.

Lemma loop_keys_unique (evs : list (event * Element)) (st st' : state) :
  loop evs st = Ok st' →
  keys_unique (current_tags st) →
  Forall (fun f => keys_unique (properties f)) (features st) →
  Forall (fun f => keys_unique (properties f)) (features st').
Proof.
  revert st. induction evs as [|[ev elem] evs IH]; intros st.
  - by intros [= <-].
  - simpl. destruct (step ev elem st) as [st1|e] eqn:Hstep; [simpl|done].
    intros Hrun Htgs Hfs. apply (IH st1 Hrun).
    + apply step_shape in Hstep as (base & new & Hch & -> & _). simpl.
      destruct Hch as [tgs refs ms [->|[->|(k & v & ->)]] _| | |]; simpl;
        try done.
      * apply NoDup_nil_2.
      * by apply set_keys_unique.
    + apply step_shape in Hstep as (base & new & Hch & -> & Hnew & _). simpl.
      apply Forall_app. split.
      * by destruct Hch.
      * eapply Forall_impl; [exact Hnew|].
        intros f. by apply emitted_by_keys_unique.
Qed.

Lemma set_keys_named (k v : pystr) (d : list (pystr * pystr)) :
  is_Some k → keys_named d → keys_named (PyDict.set k v d).
Proof.
  intros Hk. unfold keys_named. induction d as [|[k0 v0] d IH]; simpl.
  - intros _. by repeat constructor.
  - intros [Hk0 Hd]%Forall_cons. case_decide; constructor; auto.
Qed.

Lemma emitted_by_keys_named (tgs : list (pystr * pystr)) (id : pystr)
    (f : feature) :
  keys_named tgs → emitted_by tgs id f → keys_named (properties f).
Proof.
  intros Htgs [->|[role ->]]; repeat apply set_keys_named; done.
Qed.

Lemma step_tags (ev : event) (elem : Element) (st st' : state) :
  step ev elem st = Ok st' →
  current_tags st' = [] ∨ current_tags st' = current_tags st ∨
  (ev = ev_end ∧ tag elem = "tag" ∧
   current_tags st' =
     PyDict.set (get elem "k") (get elem "v") (current_tags st)).
Proof.
  destruct ev; simpl.
  - intros [= <-]. unfold on_start. case_bool_decide; simpl; auto.
  - unfold on_end. repeat case_bool_decide.
    + intros [= <-]. right; right. done.
    + intros [= <-]. by right; left.
    + intros [= <-]. by right; left.
    + intros Hrun.
      apply end_node_shape in Hrun as (x & y & new & _ & _ & -> & _).
      by right; left.
    + intros Hrun. destruct (end_way_shape elem st) as (new & Hrun' & _).
      rewrite Hrun' in Hrun. injection Hrun as <-. by right; left.
    + intros Hrun. destruct (end_relation_shape elem st) as (new & Hrun' & _).
      rewrite Hrun' in Hrun. injection Hrun as <-. by right; left.
    + intros [= <-]. by right; left.
Qed.

Lemma loop_keys_named (evs : list (event * Element)) (st st' : state) :
  loop evs st = Ok st' →
  tags_have_keys evs →
  keys_named (current_tags st) →
  Forall (fun f => keys_named (properties f)) (features st) →
  Forall (fun f => keys_named (properties f)) (features st').
Proof.
  revert st. induction evs as [|[ev elem] evs IH]; intros st.
  - by intros [= <-].
  - simpl. destruct (step ev elem st) as [st1|e] eqn:Hstep; [simpl|done].
    intros Hrun Hk Htgs Hfs. apply (IH st1 Hrun).
    + intros e Hin. apply Hk. by right.
    + destruct (step_tags _ _ _ _ Hstep) as [->|[->|(-> & Htag & ->)]].
      * constructor.
      * done.
      * apply set_keys_named; [|done]. apply Hk; [left|done].
    + apply step_shape in Hstep as (base & new & Hch & -> & Hnew & _). simpl.
      apply Forall_app. split.
      * by destruct Hch.
      * eapply Forall_impl; [exact Hnew|].
        intros f. by apply emitted_by_keys_named.
Qed.

Lemma json_keys_unique (d : list (pystr * pystr)) :
  keys_unique d → keys_named d → NoDup (json_keys d).
Proof.
  unfold keys_unique, keys_named, json_keys.
  induction d as [|[k v] d IH]; simpl; [constructor|].
  rewrite NoDup_cons. intros [Hk Hd] [Hs Hn]%Forall_cons.
  simpl in Hs. destruct Hs as [s ->]. simpl in *.
  apply NoDup_cons. split; [|by apply IH].
  intros Hin. apply Hk.
  apply list_elem_of_fmap in Hin as ([k' v'] & Heq & Hin). simpl in Heq.
  apply list_elem_of_fmap. exists (k', v'). split; [|done].
  rewrite Forall_forall in Hn. destruct (Hn _ Hin) as [s' Hs']. simpl in *.
  subst k'. simpl in Heq. by subst s'.
Qed.

(** X6: in the document written for an input whose [tag] elements all
    have a [k] attribute, no feature has two properties with one name, however
    tags repeat and whatever they are called ([osm_id] and [rel_role]
    included); and whatever the input, the keys of every properties dict are
    pairwise distinct before they are written. (With a [tag] that has no [k]
    beside a [tag] whose [k] is [null], both are written as [null].) *)
Theorem properties_keys_are_unique (doc : document) (fs : list feature) :
  pass doc = Ok fs →
  Forall (fun f => keys_unique (properties f)) fs ∧
  (tags_have_keys (events doc) →
   Forall (fun f => NoDup (json_keys (properties f))) fs).
Proof.
  unfold pass. intros Hrun.
  destruct (loop (events doc) initial) as [st|e] eqn:Hloop; [|done].
  simpl in Hrun. destruct (malformed doc); [done|]. injection Hrun as <-.
  assert (Forall (fun f => keys_unique (properties f)) (features st)) as Hu.
  { apply (loop_keys_unique _ _ _ Hloop); [apply NoDup_nil_2|constructor]. }
  split; [exact Hu|]. intros Hk.
  assert (Forall (fun f => keys_named (properties f)) (features st)) as Hn.
  { apply (loop_keys_named _ _ _ Hloop Hk); constructor. }
  rewrite Forall_forall in Hu, Hn. apply Forall_forall. intros f Hf.
  apply json_keys_unique; auto.
Qed.

Lemma loop_provenance (evs : list (event * Element)) (st st' : state) :
  loop evs st = Ok st' →
  ∃ new, features st' = features st ++ new ∧
    Forall (fun f => ∃ elem, (ev_end, elem) ∈ evs ∧ primitive (tag elem) ∧
              PyDict.get (Some "osm_id") (properties f)
              = Some (get elem "id")) new.
Proof.
  revert st. induction evs as [|[ev elem] evs IH]; intros st.
  - intros [= <-]. exists []. by rewrite app_nil_r.
  - simpl. destruct (step ev elem st) as [st1|e] eqn:Hstep; [simpl|done].
    intros Hrun. apply IH in Hrun as (new2 & Hf2 & Hall2).
    apply step_shape in Hstep as (base & new1 & Hch & -> & Hnew & Hnone).
    exists (new1 ++ new2). split.
    { rewrite Hf2. simpl. rewrite <- app_assoc. f_equal. by destruct Hch. }
    apply Forall_app. split.
    + destruct ev.
      * rewrite Hnone; [constructor|]. by intros [? _].
      * destruct (decide (tag elem ∈ ["node"; "way"; "relation"]))
          as [Hp|Hnp].
        -- eapply Forall_impl; [exact Hnew|]. intros f Hf.
           exists elem. split; [left|]. split; [done|].
           by apply emitted_by_osm_id in Hf.
        -- rewrite Hnone; [constructor|]. by intros [_ ?].
    + eapply Forall_impl; [exact Hall2|].
      intros f (e & Hin & Hp & Hid). exists e. split; [by right|done].
Qed.

(** X7: every feature a document compiles to carries an [osm_id], and it
    is the [id] attribute of a node, way or relation that ends in the
    document; and an event that is not the end of a node, way or relation
    never changes the feature list, so no other element emits a feature. *)
Theorem every_feature_has_a_source (doc : document) (fs : list feature)
    (ev : event) (elem : Element) (st st' : state) :
  (pass doc = Ok fs →
   Forall (fun f => ∃ elem, (ev_end, elem) ∈ events doc ∧
             primitive (tag elem) ∧
             PyDict.get (Some "osm_id") (properties f) = Some (get elem "id"))
     fs) ∧
  (step ev elem st = Ok st' →
   ¬ (ev = ev_end ∧ primitive (tag elem)) →
   features st' = features st).
Proof.
  split.
  - unfold pass. intros Hrun.
    destruct (loop (events doc) initial) as [st0|e] eqn:Hloop; [|done].
    simpl in Hrun. destruct (malformed doc); [done|]. injection Hrun as <-.
    apply loop_provenance in Hloop as (new & Hf & Hall). by rewrite Hf.
  - intros Hstep Hnp.
    apply step_shape in Hstep as (base & new & Hch & -> & _ & Hnone).
    rewrite (Hnone Hnp). simpl. rewrite app_nil_r.
    destruct Hch as [| ? ? Hev Ht | Hev Ht | Hev Ht]; simpl; try done;
      exfalso; apply Hnp; (split; [done|]); is_primitive.
Qed.

(** X8: a well-formed document in which no node, way or relation ends
    (an empty [osm] element, say) compiles to no feature, whatever other
    elements it holds. *)
Theorem no_primitive_no_feature (doc : document) :
  malformed doc = false →
  (∀ elem, (ev_end, elem) ∈ events doc → ¬ primitive (tag elem)) →
  pass doc = Ok [].
Proof.
  intros Hwf Hnone. unfold pass.
  destruct (loop_ok (events doc) initial) as [st Hloop].
  { intros elem Hin Htag. exfalso. apply (Hnone elem Hin).
    unfold primitive. rewrite Htag. apply list_elem_of_In. simpl. tauto. }
  rewrite Hloop. simpl. rewrite Hwf.
  apply loop_provenance in Hloop as (new & -> & Hall). simpl.
  destruct new as [|f new]; [done|].
  apply Forall_cons in Hall as [(elem & Hin & Hp & _) _].
  by destruct (Hnone elem Hin).
Qed.

(** ** The scratch buffers of a primitive *)

Lemma loop_leaves (cs : list Element) (rest : list (event * Element))
    (st : state) :
  Forall (fun c => ¬ primitive (tag c)) cs →
  loop (concat (map iterparse (map (fun c => Elem c []) cs)) ++ rest) st =
  loop rest
    (set_scratch st
       (assign_all (tag_pairs cs) (current_tags st))
       (current_refs st ++ refs_of cs)
       (current_members st ++ members_of cs)).
Proof.
  revert st. induction cs as [|c cs IH]; intros st Hcs.
  - simpl. unfold refs_of, members_of. simpl. rewrite !app_nil_r.
    by rewrite set_scratch_same.
  - apply Forall_cons in Hcs as [Hc Hcs].
    assert (tag c ≠ "node" ∧ tag c ≠ "way" ∧ tag c ≠ "relation")
      as (Hn & Hw & Hr).
    { repeat split; intros Ht; apply Hc; is_primitive. }
    cbn [map concat iterparse]. cbn [app loop step].
    unfold on_start. rewrite bool_decide_eq_false_2 by done.
    simpl. unfold on_end, tag_pairs, refs_of, members_of.
    rewrite !filter_cons.
    destruct (decide (tag c = "tag")) as [Ht|Ht];
      [|destruct (decide (tag c = "nd")) as [Hnd|Hnd];
        [|destruct (decide (tag c = "member")) as [Hm|Hm]]];
      settle_tags; simpl; rewrite IH by done;
      unfold set_scratch, tag_pairs, refs_of, members_of; simpl;
      rewrite <- ?app_assoc; done.
Qed.

(** X9: what a primitive is finalized with is built by its own children
    alone: whatever the scratch buffers held before, a node, way or relation
    with leaf children ends with the tags assigned by its [tag] children in
    order, the refs of its [nd] children in order and its [member]
    children in order; children of any other kind contribute nothing. *)
Theorem primitive_scratch (elem : Element) (cs : list Element) (st : state) :
  primitive (tag elem) →
  Forall (fun c => ¬ primitive (tag c)) cs →
  loop (iterparse (with_leaves elem cs)) st =
  step ev_end elem
    (set_scratch st (tags_of cs) (refs_of cs) (members_of cs)).
Proof.
  intros Hp Hcs. unfold with_leaves. cbn [iterparse]. cbn [loop step].
  unfold on_start. rewrite bool_decide_eq_true_2 by done. simpl.
  rewrite loop_leaves by done. simpl.
  unfold set_scratch, tags_of. simpl.
  match goal with |- _ ≫= _ = ?r => destruct r end; done.
Qed.
End Documents.

Section Elements.
Context {float : Type} {PF : PyFloat float}.
Local Abbreviation coord := (@coord float).
Local Abbreviation way_entry := (@way_entry float).
Local Abbreviation feature := (@feature float).
Local Abbreviation state := (@state float).

(** ** Ways *)

Lemma item_eq_same (a : float_obj (float := float)) : item_eq a a = true.
Proof. unfold item_eq. by rewrite bool_decide_eq_true_2. Qed.

(** X10: a tagged way with at least two refs, the first and the last of
    which are one node id that is in the registry, is a Polygon, whatever the
    floats are (a NaN coordinate included): the two ends are then one and
    the same list. *)
Theorem closed_way_is_polygon (elem : Element) (st : state) (r : pystr)
    (mid : list pystr) (c : coord) :
  tag elem = "way" →
  current_tags st ≠ [] →
  current_refs st = r :: mid ++ [r] →
  nodes st !! r = Some c →
  ∃ st' f,
    step ev_end elem st = Ok st' ∧
    features st' = features st ++ [f] ∧
    geometry f = Polygon [resolved_coords st].
Proof.
  intros Htag Htags Hrefs Hr. simpl. rewrite on_end_way by done.
  unfold end_way. rewrite resolve_refs_ok. simpl.
  rewrite truthy_nonempty by done.
  assert (resolved_coords st =
          c :: omap (fun r' => nodes st !! r') mid ++ [c]) as Hcs.
  { unfold resolved_coords. rewrite Hrefs. cbn [omap list_omap].
    rewrite Hr. f_equal. rewrite omap_app. cbn [omap list_omap].
    by rewrite Hr. }
  assert (is_polygon (resolved_coords st) = Ok true) as ->.
  { unfold is_polygon. rewrite Hcs.
    rewrite bool_decide_eq_true_2 by (simpl; rewrite length_app; simpl; lia).
    rewrite index_first. simpl.
    rewrite (index_last _ c).
    - simpl. unfold coord_eq. by rewrite !item_eq_same.
    - rewrite app_comm_cons. apply last_snoc. }
  simpl. eexists _, _. split; [reflexivity|]. done.
Qed.

Lemma tag_pairs_none (cs : list Element) :
  Forall (fun c => tag c ≠ "tag") cs → tag_pairs cs = [].
Proof.
  unfold tag_pairs. induction 1 as [|c cs Hc _ IH]; [done|].
  rewrite filter_cons, decide_False by done. exact IH.
Qed.

(** X11: a way all of whose children are leaves (elements without
    children of their own), none of them a [tag], a node, a way or a
    relation, emits no feature and touches no node, but is stored under its
    id with the coordinates of its [nd] children that are in the node
    registry, where later relations find it. *)
Theorem untagged_way_is_stored_silently (elem : Element)
    (cs : list Element) (st : state) :
  tag elem = "way" →
  Forall (fun c => ¬ primitive (tag c)) cs →
  Forall (fun c => tag c ≠ "tag") cs →
  ∃ st',
    loop (iterparse (with_leaves elem cs)) st = Ok st' ∧
    features st' = features st ∧
    nodes st' = nodes st ∧
    ways st' =
      <[get elem "id" :=
          {| coords := omap (fun r => nodes st !! r) (refs_of cs);
             tags := [] |}]> (ways st).
Proof.
  intros Htag Hcs Hnone.
  rewrite primitive_scratch by (done || is_primitive).
  simpl. rewrite on_end_way by done.
  destruct (end_way_shape elem
              (set_scratch st (tags_of cs) (refs_of cs) (members_of cs)))
    as (new & -> & _ & Hnew).
  unfold tags_of in *. rewrite tag_pairs_none in * by done.
  rewrite Hnew by done. eexists. split; [reflexivity|]. simpl.
  by rewrite app_nil_r.
Qed.

(** ** Relations *)

(** X12: a relation all of whose children are leaves (elements without
    children of their own), none of them a node, a way or a relation, and
    whose [tag] children give no [type], or a type other than multipolygon,
    boundary, route and restriction, leaves the registries and the features
    as they are, whatever its members. *)
Theorem other_relation_is_inert (elem : Element) (cs : list Element)
    (st : state) :
  tag elem = "relation" →
  Forall (fun c => ¬ primitive (tag c)) cs →
  rel_type_of (tags_of cs) ∉
    [Some "multipolygon"; Some "boundary"; Some "route"; Some "restriction"] →
  ∃ st',
    loop (iterparse (with_leaves elem cs)) st = Ok st' ∧
    features st' = features st ∧
    nodes st' = nodes st ∧
    ways st' = ways st.
Proof.
  intros Htag Hcs Htype.
  rewrite primitive_scratch by (done || is_primitive).
  simpl. rewrite on_end_relation by done.
  unfold end_relation. cbv zeta. simpl.
  rewrite !bool_decide_eq_false_2.
  - by eexists.
  - intros Hin. apply Htype. by do 2 right.
  - intros Hin. apply Htype.
    apply elem_of_cons in Hin as [->|Hin]; [left|].
    apply elem_of_cons in Hin as [->|Hin]; [right; left|].
    by apply elem_of_nil in Hin.
Qed.

(** ** Identity and value of coordinates *)

Lemma step_addresses (ev : event) (elem : Element) (st st' : state) :
  step ev elem st = Ok st' →
  addresses_consistent st → addresses_consistent st'.
Proof.
  intros Hstep [Hlt Huniq].
  apply step_shape in Hstep as (base & new & Hch & -> & _).
  unfold addresses_consistent. simpl.
  destruct Hch as [| x y _ _ _ _ | |]; simpl; try done.
  split.
  - intros k c [[_ <-]|[_ Hc]]%lookup_insert_Some; simpl; [lia|].
    apply Hlt in Hc. lia.
  - intros k k' c c' [[_ <-]|[_ Hc]]%lookup_insert_Some
                     [[_ <-]|[_ Hc']]%lookup_insert_Some; simpl.
    + done.
    + apply Hlt in Hc'. split; intros; lia.
    + apply Hlt in Hc. split; intros; lia.
    + by eapply Huniq.
Qed.

Lemma loop_addresses (evs : list (event * Element)) (st st' : state) :
  loop evs st = Ok st' →
  addresses_consistent st → addresses_consistent st'.
Proof.
  revert st. induction evs as [|[ev elem] evs IH]; intros st.
  - by intros [= <-].
  - simpl. destruct (step ev elem st) as [st1|e] eqn:Hstep; [simpl|done].
    intros Hrun Hst. apply (IH st1 Hrun). by eapply step_addresses.
Qed.

(** X13: between coordinates that are not NaN the closure test of a way
    compares values only: at every point of a pass, a resolved coordinate
    whose longitude and latitude each equal themselves is equal, as a list,
    to another resolved coordinate exactly when their longitudes and their
    latitudes are equal floats. *)
Theorem closure_is_by_value (evs : list (event * Element)) (st : state)
    (c c' : coord) :
  loop evs initial = Ok st →
  c ∈ resolved_coords st → c' ∈ resolved_coords st →
  float_eq (val c.1) (val c.1) = true →
  float_eq (val c.2) (val c.2) = true →
  coord_eq c c' = value_eq c c'.
Proof.
  intros Hrun Hc Hc' Hlon_refl Hlat_refl.
  assert (addresses_consistent st) as [_ Huniq].
  { apply (loop_addresses _ _ _ Hrun).
    split; [intros k x Hk|intros k k' x x' Hk]; simpl in Hk;
      by rewrite lookup_empty in Hk. }
  unfold resolved_coords in *.
  apply list_elem_of_omap in Hc as (r & _ & Hr).
  apply list_elem_of_omap in Hc' as (r' & _ & Hr').
  destruct (Huniq _ _ _ _ Hr Hr') as [Hlon Hlat].
  unfold coord_eq, value_eq, item_eq.
  f_equal.
  - case_bool_decide as Ha; [|done]. simpl.
    by rewrite <- (Hlon Ha), Hlon_refl.
  - case_bool_decide as Ha; [|done]. simpl.
    by rewrite <- (Hlat Ha), Hlat_refl.
Qed.
End Elements.

(** * The download request *)

Lemma split_free (sep : ascii) (s : string) :
  free_of sep s → split_on sep s = [s].
Proof.
  unfold free_of. induction s as [|c s IH]; [done|]. simpl.
  rewrite not_elem_of_cons. intros [Hc Hs].
  destruct (Ascii.eqb_spec c sep) as [->|_]; [done|]. by rewrite IH.
Qed.

Lemma split_app (sep : ascii) (a b : string) :
  free_of sep a →
  split_on sep (a +:+ String sep b) = a :: split_on sep b.
Proof.
  unfold free_of. induction a as [|c a IH]; simpl.
  - intros _. by rewrite Ascii.eqb_refl.
  - rewrite not_elem_of_cons. intros [Hc Ha].
    destruct (Ascii.eqb_spec c sep) as [->|_]; [done|]. by rewrite IH.
Qed.

Section Download.
Context {float : Type} (str : float → string).

(** X14: after [set_bbox(south, west, north, east)], [download] asks
    [_execute_download] for the Overpass map url with the query
    [bbox=west,south,east,north] and for the file [<dataset_name>.osm]:
    the four numbers are separated by literal commas, so splitting the query
    value at the commas gives them back, in that order. *)
Theorem download_request (self : Engine.engine) (s w n e : float) :
  free_of "," (str w) → free_of "," (str s) →
  free_of "," (str e) → free_of "," (str n) →
  ∃ q,
    Engine.download str (Engine.set_bbox self s w n e) =
      Ok ("https://overpass-api.de/api/map?bbox=" +:+ q,
          Engine.dataset_name self +:+ ".osm") ∧
    split_on "," q = [str w; str s; str e; str n].
Proof.
  intros Hw Hs He Hn. exists (Engine.bbox_str str
    {| Engine.south := s; Engine.west := w;
       Engine.north := n; Engine.east := e |}).
  split; [reflexivity|]. unfold Engine.bbox_str.
  cbn [Engine.west Engine.south Engine.east Engine.north].
  assert (∀ a b, free_of "," a →
            split_on "," (a +:+ "," +:+ b) = a :: split_on "," b) as Hsplit
    by (intros a b; apply split_app).
  rewrite (Hsplit (str w)) by done. rewrite (Hsplit (str s)) by done.
  rewrite (Hsplit (str e)) by done. by rewrite split_free.
Qed.

(** [download] raises [ValueError] exactly when no bounding box was
    set: on a fresh engine it raises, and after [set_bbox] it never does. *)
Lemma download_needs_bbox (self : Engine.engine) :
  Engine.download str self = Raise ValueError ↔ Engine.bbox self = None.
Proof.
  unfold Engine.download. destruct (Engine.bbox self); split; done.
Qed.
End Download.

Section Errors.
Context {float : Type} {PF : PyFloat float}.
Local Abbreviation feature := (@feature float).
Local Abbreviation state := (@state float).

(** X15: whatever the events and the state, the loop body raises nothing
    but the exceptions of [float]: [TypeError] for a node without [lon] or
    [lat], [ValueError] for one that is not a number. No lookup in a registry
    and no index into a coordinate list ever raises ([KeyError],
    [IndexError]); every other exception of a call comes from the parser. *)
Theorem loop_raises_float_errors_only (evs : list (event * Element))
    (st : state) (e : exn) :
  loop evs st = Raise e → e = TypeError ∨ e = ValueError.
Proof.
  revert st. induction evs as [|[ev elem] evs IH]; intros st; [done|].
  simpl. destruct (step ev elem st) as [st1|e1] eqn:Hstep; simpl.
  - apply IH.
  - intros [= <-]. destruct ev; [done|]. simpl in Hstep.
    unfold on_end in Hstep. repeat case_bool_decide; try done.
    + unfold end_node, py_float in Hstep.
      destruct (get elem "lon") as [lon|]; [|injection Hstep as <-; by left].
      destruct (float_of_string lon); [|injection Hstep as <-; by right].
      destruct (get elem "lat") as [lat|]; [|injection Hstep as <-; by left].
      destruct (float_of_string lat); [|injection Hstep as <-; by right].
      simpl in Hstep. by destruct (PyDict.truthy (current_tags st)).
    + destruct (end_way_ok elem st) as (st1 & Hrun & _). congruence.
    + destruct (end_relation_ok elem st) as (st1 & new & Hrun & _).
      congruence.
Qed.
End Errors.

(** ** The properties on small inputs *)

Lemma registries_change_at_their_primitive_witness :
  ∃ st',
    step (PF := Decimal.model) ev_end Examples.way_11 Examples.ring_state
      = Ok st' ∧
    nodes st' = nodes Examples.ring_state.
Proof.
  eexists. split; [reflexivity|].
  apply (registries_change_at_their_primitive (PF := Decimal.model)
           ev_end Examples.way_11 Examples.ring_state _ eq_refl).
  intros [_ Htag]. discriminate Htag.
Defined.

Lemma pass_only_adds_witness :
  ∃ st',
    loop (PF := Decimal.model) MoreExamples.node_end Examples.ring_state
      = Ok st' ∧
    dom (nodes Examples.ring_state) ⊆ dom (nodes st').
Proof.
  eexists. split; [reflexivity|].
  apply (pass_only_adds (PF := Decimal.model) MoreExamples.node_end
           Examples.ring_state _ eq_refl).
Defined.

Lemma registry_entries_are_final_witness :
  ∃ st',
    loop (PF := Decimal.model) MoreExamples.node_end Examples.ring_state
      = Ok st' ∧
    nodes st' !! Some "1" = nodes Examples.ring_state !! Some "1".
Proof.
  eexists. split; [reflexivity|].
  apply (registry_entries_are_final (PF := Decimal.model) (Some "1")
           MoreExamples.node_end Examples.ring_state _ eq_refl).
  intros elem Hin _.
  apply elem_of_cons in Hin as [Hin|Hin]; [|by apply elem_of_nil in Hin].
  injection Hin as ->. discriminate.
Defined.

Lemma properties_keys_are_unique_witness :
  ∃ fs,
    pass (PF := Decimal.model) Examples.dangling_doc = Ok fs ∧
    Forall (fun f => keys_unique (properties f)) fs ∧
    (tags_have_keys (events Examples.dangling_doc) →
     Forall (fun f => NoDup (json_keys (properties f))) fs).
Proof.
  eexists. split; [vm_compute; reflexivity|].
  apply (properties_keys_are_unique (PF := Decimal.model)
           Examples.dangling_doc).
  vm_compute. reflexivity.
Defined.

(** Without the [k] of a [tag], two properties can be written under one
    name. *)
Lemma null_key_is_written_twice :
  ∃ f,
    pass (PF := Decimal.model) MoreExamples.null_key_doc = Ok [f] ∧
    json_keys (properties f) = ["null"; "null"; "osm_id"].
Proof. eexists. split; vm_compute; reflexivity. Qed.

Lemma every_feature_has_a_source_witness :
  ∃ fs,
    pass (PF := Decimal.model) Examples.dangling_doc = Ok fs ∧
    Forall (fun f => ∃ elem, (ev_end, elem) ∈ events Examples.dangling_doc ∧
              primitive (tag elem) ∧
              PyDict.get (Some "osm_id") (properties f)
              = Some (get elem "id")) fs.
Proof.
  eexists. split; [vm_compute; reflexivity|].
  apply (proj1 (every_feature_has_a_source (PF := Decimal.model)
                  Examples.dangling_doc _ ev_start Examples.way_11
                  Examples.ring_state Examples.ring_state)).
  vm_compute. reflexivity.
Defined.

Lemma no_primitive_no_feature_witness :
  malformed MoreExamples.bare_doc = false ∧
  pass (PF := Decimal.model) MoreExamples.bare_doc = Ok [].
Proof.
  split; [reflexivity|].
  apply (no_primitive_no_feature (PF := Decimal.model)); [reflexivity|].
  intros elem Hin Hp.
  let l := eval vm_compute in (events MoreExamples.bare_doc) in
  change (events MoreExamples.bare_doc) with l in Hin.
  unfold primitive in Hp.
  repeat (apply elem_of_cons in Hin as [Hin|Hin];
          [first [discriminate Hin
                 |injection Hin as ->;
                  repeat (apply elem_of_cons in Hp as [Hp|Hp];
                          [discriminate Hp|]);
                  by apply elem_of_nil in Hp]
          |]).
  by apply elem_of_nil in Hin.
Defined.

Lemma non_primitive_children (cs : list Element) :
  forallb (fun c => bool_decide (tag c ∉ ["node"; "way"; "relation"])) cs
  = true →
  Forall (fun c => ¬ primitive (tag c)) cs.
Proof.
  intros Hcs. apply Forall_forall. intros c Hc.
  rewrite forallb_forall in Hcs.
  apply list_elem_of_In, Hcs, bool_decide_eq_true in Hc. exact Hc.
Qed.

Lemma primitive_scratch_witness :
  primitive (tag MoreExamples.way_12) ∧
  loop (PF := Decimal.model)
    (iterparse (with_leaves MoreExamples.way_12 MoreExamples.way_12_children))
    Examples.ring_state =
  step (PF := Decimal.model) ev_end MoreExamples.way_12
    (set_scratch Examples.ring_state []
       [Some "2"; Some "1"; Some "2"] []).
Proof.
  assert (primitive (tag MoreExamples.way_12)) as Hp by (right; left).
  split; [exact Hp|].
  apply (primitive_scratch (PF := Decimal.model) MoreExamples.way_12
           MoreExamples.way_12_children Examples.ring_state Hp).
  by apply non_primitive_children.
Defined.

Lemma closed_way_is_polygon_witness :
  ∃ st' f,
    step (PF := Decimal.model) ev_end Examples.way_11 Examples.ring_state
      = Ok st' ∧
    features st' = features Examples.ring_state ++ [f] ∧
    geometry f = Polygon [resolved_coords Examples.ring_state].
Proof.
  apply (closed_way_is_polygon (PF := Decimal.model) Examples.way_11
           Examples.ring_state (Some "1") [Some "2"; Some "99"]
           (Examples.at_ 0 (-1172110) 4, Examples.at_ 1 328715 4));
    [reflexivity|discriminate|reflexivity|reflexivity].
Defined.

Lemma untagged_way_is_stored_silently_witness :
  ∃ st',
    loop (PF := Decimal.model)
      (iterparse (with_leaves MoreExamples.way_12 MoreExamples.way_12_children))
      Examples.ring_state = Ok st' ∧
    features st' = features Examples.ring_state.
Proof.
  destruct (untagged_way_is_stored_silently (PF := Decimal.model)
              MoreExamples.way_12 MoreExamples.way_12_children
              Examples.ring_state)
    as (st' & Hrun & Hf & _).
  - reflexivity.
  - by apply non_primitive_children.
  - repeat constructor; discriminate.
  - exists st'. split; [exact Hrun|exact Hf].
Defined.

Lemma other_relation_is_inert_witness :
  ∃ st',
    loop (PF := Decimal.model)
      (iterparse
         (with_leaves Examples.relation_100 MoreExamples.untyped_children))
      (Examples.relation_state "route") = Ok st' ∧
    features st' = features (Examples.relation_state "route").
Proof.
  destruct (other_relation_is_inert (PF := Decimal.model)
              Examples.relation_100 MoreExamples.untyped_children
              (Examples.relation_state "route"))
    as (st' & Hrun & Hf & _).
  - reflexivity.
  - by apply non_primitive_children.
  - intros Hin.
    repeat (apply elem_of_cons in Hin as [Hin|Hin]; [discriminate Hin|]).
    by apply elem_of_nil in Hin.
  - exists st'. split; [exact Hrun|exact Hf].
Defined.

Lemma closure_is_by_value_witness :
  ∃ c c',
    loop (PF := Decimal.model) (events MoreExamples.two_node_doc) initial
      = Ok MoreExamples.after_two_nodes ∧
    c ∈ resolved_coords MoreExamples.after_two_nodes ∧
    c' ∈ resolved_coords MoreExamples.after_two_nodes ∧
    c ≠ c' ∧
    coord_eq (PF := Decimal.model) c c' = value_eq (PF := Decimal.model) c c'.
Proof.
  exists (Examples.at_ 0 (-1172110) 4, Examples.at_ 1 328715 4),
         (Examples.at_ 2 (-1172120) 4, Examples.at_ 3 328720 4).
  assert (loop (PF := Decimal.model) (events MoreExamples.two_node_doc)
            initial = Ok MoreExamples.after_two_nodes) as Hrun
    by (vm_compute; reflexivity).
  assert ((Examples.at_ 0 (-1172110) 4, Examples.at_ 1 328715 4) ∈
          resolved_coords MoreExamples.after_two_nodes) as Hin
    by (vm_compute; left).
  assert ((Examples.at_ 2 (-1172120) 4, Examples.at_ 3 328720 4) ∈
          resolved_coords MoreExamples.after_two_nodes) as Hin'
    by (vm_compute; right; left).
  split; [exact Hrun|]. split; [exact Hin|]. split; [exact Hin'|].
  split; [discriminate|].
  exact (closure_is_by_value (PF := Decimal.model)
           (events MoreExamples.two_node_doc) MoreExamples.after_two_nodes
           _ _ Hrun Hin Hin' eq_refl eq_refl).
Defined.

Lemma download_request_witness :
  ∃ q,
    Engine.download (fun x : string => x)
      (Engine.set_bbox (Engine.init "test_utc_unit")
         "32.868" "-117.215" "32.875" "-117.208") =
      Ok ("https://overpass-api.de/api/map?bbox=" +:+ q,
          "test_utc_unit.osm") ∧
    split_on "," q = ["-117.215"; "32.868"; "-117.208"; "32.875"].
Proof.
  assert (∀ s, forallb (fun c => negb (Ascii.eqb "," c))
                 (list_ascii_of_string s) = true → free_of "," s) as Hfree.
  { intros s Hs Hin. rewrite forallb_forall in Hs.
    apply list_elem_of_In, Hs in Hin. by rewrite Ascii.eqb_refl in Hin. }
  apply (download_request (fun x : string => x)
           (Engine.init "test_utc_unit")
           "32.868" "-117.215" "32.875" "-117.208");
    by apply Hfree.
Defined.

Lemma loop_raises_float_errors_only_witness :
  ∃ e,
    loop (PF := Decimal.model) (events Examples.corrupt_doc) initial
      = Raise e ∧
    (e = TypeError ∨ e = ValueError).
Proof.
  eexists. split; [vm_compute; reflexivity|].
  apply (loop_raises_float_errors_only (PF := Decimal.model)
           (events Examples.corrupt_doc) initial).
  vm_compute. reflexivity.
Defined.
